(** * Voice Bot front end (src/App.js): a shallow embedding of the session
      logic of the [App] component and the properties of its handlers.

    The component keeps React state (question, response, isListening,
    isLoading, error, showError, timeLeft) and two refs (recognitionRef,
    timeoutRef).  Its handlers call into the host: the speech recognition
    object, the interval timers of the page, the socket and the speech
    synthesis device.  Handlers are embedded as computations in a small
    monad that threads the world, records every host call in order, and
    propagates JavaScript exceptions ([try]/[catch] included).  What the host
    does on a call that may throw is an input of the handler ([Host]).

    Conventions.  State setters take effect in the order they are called; no
    handler reads a state variable after setting it, so batching is not
    visible.  The handlers installed by the mount effect close over
    [stopListening] and [speakResponse] of the first render, which only use
    the refs and the setters, hence behave as those of any render.  The
    updater passed to [setTimeLeft] runs once per firing of the interval.
    Payloads of the socket events are strings.  The cleanup of the mount
    effect (unmounting) is outside the runs considered.  A click on a control
    is also a click outside the error Snackbar, which closes it when open. *)

From Stdlib Require Import ZArith NArith Ascii String List Bool Lia.
From stdpp Require Import base gmap sets list.
Import ListNotations.

Local Open Scope Z_scope.

(** ** JavaScript strings: sequences of UTF-16 code units *)

Definition jsstring : Type := list N.

(** A string literal of the source (ASCII only). *)
Definition lit (s : string) : jsstring :=
  List.map N_of_ascii (list_ascii_of_string s).

(** ECMAScript WhiteSpace and LineTerminator code units, the ones
    [String.prototype.trim] removes. *)
Definition isWhiteSpace (c : N) : bool :=
  existsb (N.eqb c)
    [9; 10; 11; 12; 13; 32; 160; 5760; 8232; 8233; 8239; 8287; 12288; 65279]%N
  || (N.leb 8192 c && N.leb c 8202).

Fixpoint trimStart (s : jsstring) : jsstring :=
  match s with
  | c :: s' => if isWhiteSpace c then trimStart s' else s
  | [] => []
  end.

Definition trimEnd (s : jsstring) : jsstring := rev (trimStart (rev s)).

Definition trim (s : jsstring) : jsstring := trimEnd (trimStart s).

(** Truthiness of a string: the empty string is the only falsy one. *)
Definition truthy (s : jsstring) : bool :=
  match s with [] => false | _ :: _ => true end.

(** [Array.prototype.join('')] on an array of strings. *)
Definition join (parts : list jsstring) : jsstring := List.concat parts.

(** ** Speech recognition results *)

Record SpeechRecognitionAlternative : Type :=
  mkAlternative { transcript : jsstring }.

(** A result is an array of alternatives with an [isFinal] flag. *)
Record SpeechRecognitionResult : Type :=
  mkResult { alternatives : list SpeechRecognitionAlternative; isFinal : bool }.

(** ** The component's state *)

Record App : Type := mkApp {
  question : jsstring;
  response : jsstring;
  isListening : bool;
  isLoading : bool;
  error : jsstring;
  showError : bool;
  timeLeft : Z;
  recognitionRef : bool;            (* recognitionRef.current is an object *)
  timeoutRef : option positive      (* timeoutRef.current: null or a handle *)
}.

(** The world: the component, the page's active interval timers, the next
    timer handle, whether the socket listeners of the component are
    registered, and whether the window offers speech recognition. *)
Record World : Type := mkWorld {
  component : App;
  timers : gset positive;
  nextHandle : positive;
  socketListeners : bool;
  speechSupported : bool
}.

(** Host calls, recorded in the order they are made. *)
Inductive call : Type :=
| RecognitionStart_call
| RecognitionStop_call
| SetInterval_call (id : positive)
| ClearInterval_call (id : positive)
| SocketOn_call (name : jsstring)
| SocketEmit_call (name payload : jsstring)
| NewUtterance_call (text : jsstring)
| Speak_call (text : jsstring)
| ConsoleError_call (msg : jsstring)
| PreventDefault_call.

(** What the host does on the calls that can throw, for one handler run. *)
Record Host : Type := mkHost {
  startThrows : bool;       (* recognition.start() throws *)
  stopThrows : bool;        (* recognition.stop() throws *)
  utteranceThrows : bool;   (* new SpeechSynthesisUtterance(text) throws *)
  speakThrows : bool        (* window.speechSynthesis.speak(u) throws *)
}.

Definition hostOk : Host := mkHost false false false false.

(** ** The handler monad *)

Inductive exn : Type := TypeError | HostError.

Inductive Completion (A : Type) : Type :=
| Normal (a : A)
| Abrupt (e : exn).
Arguments Normal {A} a.
Arguments Abrupt {A} e.

Record Out (A : Type) : Type := mkOut {
  result : Completion A;
  world : World;
  calls : list call
}.
Arguments mkOut {A} _ _ _.
Arguments result {A} _.
Arguments world {A} _.
Arguments calls {A} _.

Definition M (A : Type) : Type := World -> Out A.

Definition ret {A} (a : A) : M A := fun w => mkOut (Normal a) w [].

Definition throw {A} (e : exn) : M A := fun w => mkOut (Abrupt e) w [].

Definition bind {A B} (m : M A) (f : A -> M B) : M B := fun w =>
  let o := m w in
  match result o with
  | Normal a =>
      let o' := f a (world o) in
      mkOut (result o') (world o') (calls o ++ calls o')
  | Abrupt e => mkOut (Abrupt e) (world o) (calls o)
  end.

(** [try { body } catch (error) { handler }]: effects of the body made before
    the throw stay. *)
Definition tryCatch (body : M unit) (handler : exn -> M unit) : M unit := fun w =>
  let o := body w in
  match result o with
  | Normal a => o
  | Abrupt e =>
      let o' := handler e (world o) in
      mkOut (result o') (world o') (calls o ++ calls o')
  end.

#[global] Instance M_ret : MRet M := @ret.
#[global] Instance M_bind : MBind M := fun A B f m => bind m f.

Definition getApp {A} (f : App -> A) : M A := fun w => mkOut (Normal (f (component w))) w [].

Definition getWorld {A} (f : World -> A) : M A := fun w => mkOut (Normal (f w)) w [].

Definition updApp (f : App -> App) (w : World) : World :=
  mkWorld (f (component w)) (timers w) (nextHandle w) (socketListeners w) (speechSupported w).

Definition modifyApp (f : App -> App) : M unit := fun w => mkOut (Normal tt) (updApp f w) [].

Definition hostCall (c : call) : M unit := fun w => mkOut (Normal tt) w [c].

(** State setters of [useState] and assignments to the refs. *)
Definition setQuestion (v : jsstring) : M unit :=
  modifyApp (fun a => mkApp v (response a) (isListening a) (isLoading a) (error a)
                        (showError a) (timeLeft a) (recognitionRef a) (timeoutRef a)).
Definition setResponse (v : jsstring) : M unit :=
  modifyApp (fun a => mkApp (question a) v (isListening a) (isLoading a) (error a)
                        (showError a) (timeLeft a) (recognitionRef a) (timeoutRef a)).
Definition setIsListening (v : bool) : M unit :=
  modifyApp (fun a => mkApp (question a) (response a) v (isLoading a) (error a)
                        (showError a) (timeLeft a) (recognitionRef a) (timeoutRef a)).
Definition setIsLoading (v : bool) : M unit :=
  modifyApp (fun a => mkApp (question a) (response a) (isListening a) v (error a)
                        (showError a) (timeLeft a) (recognitionRef a) (timeoutRef a)).
Definition setError (v : jsstring) : M unit :=
  modifyApp (fun a => mkApp (question a) (response a) (isListening a) (isLoading a) v
                        (showError a) (timeLeft a) (recognitionRef a) (timeoutRef a)).
Definition setShowError (v : bool) : M unit :=
  modifyApp (fun a => mkApp (question a) (response a) (isListening a) (isLoading a) (error a)
                        v (timeLeft a) (recognitionRef a) (timeoutRef a)).
Definition setTimeLeft (v : Z) : M unit :=
  modifyApp (fun a => mkApp (question a) (response a) (isListening a) (isLoading a) (error a)
                        (showError a) v (recognitionRef a) (timeoutRef a)).
Definition setRecognitionRef (v : bool) : M unit :=
  modifyApp (fun a => mkApp (question a) (response a) (isListening a) (isLoading a) (error a)
                        (showError a) (timeLeft a) v (timeoutRef a)).
Definition setTimeoutRef (v : option positive) : M unit :=
  modifyApp (fun a => mkApp (question a) (response a) (isListening a) (isLoading a) (error a)
                        (showError a) (timeLeft a) (recognitionRef a) v).

(** ** Host operations *)

Definition arm (id : positive) (ts : gset positive) : gset positive := {[id]} ∪ ts.
Definition disarm (id : positive) (ts : gset positive) : gset positive := ts ∖ {[id]}.

(** [setInterval(callback, 1000)]: a fresh handle becomes active.  Every
    interval of the component runs the countdown callback of [onstart]. *)
Definition setInterval : M positive := fun w =>
  let id := nextHandle w in
  mkOut (Normal id)
        (mkWorld (component w) (arm id (timers w)) (Pos.succ id) (socketListeners w)
                 (speechSupported w))
        [SetInterval_call id].

(** [clearInterval(id)]: never throws; nothing happens for an inactive handle. *)
Definition clearInterval (id : positive) : M unit := fun w =>
  mkOut (Normal tt)
        (mkWorld (component w) (disarm id (timers w)) (nextHandle w) (socketListeners w)
                 (speechSupported w))
        [ClearInterval_call id].

Definition recognition_start (h : Host) : M unit :=
  hostCall RecognitionStart_call ;;
  if startThrows h then throw HostError else ret tt.

Definition recognition_stop (h : Host) : M unit :=
  hostCall RecognitionStop_call ;;
  if stopThrows h then throw HostError else ret tt.

Definition newUtterance (h : Host) (text : jsstring) : M unit :=
  if utteranceThrows h then throw HostError else hostCall (NewUtterance_call text).

Definition speechSynthesis_speak (h : Host) (text : jsstring) : M unit :=
  hostCall (Speak_call text) ;;
  if speakThrows h then throw HostError else ret tt.

Definition socket_emit (name payload : jsstring) : M unit :=
  hostCall (SocketEmit_call name payload).

Definition console_error (msg : jsstring) : M unit :=
  hostCall (ConsoleError_call msg).

(** [socket.on('botResponse', ...)] and [socket.on('error', ...)]. *)
Definition socket_on_listeners : M unit := fun w =>
  mkOut (Normal tt)
        (mkWorld (component w) (timers w) (nextHandle w) true (speechSupported w))
        [SocketOn_call (lit "botResponse"); SocketOn_call (lit "error")].

(** ** The handlers of the component *)

(** [stopListening] (lines 125-137). *)
Definition stopListening (h : Host) : M unit :=
  tryCatch
    (ref ← getApp recognitionRef;
     (if (ref : bool) then recognition_stop h else ret tt) ;;
     t ← getApp timeoutRef;
     match (t : option positive) with
     | Some id => clearInterval id
     | None => ret tt
     end ;;
     setIsListening false)
    (fun _ => console_error (lit "Error stopping speech recognition:")).

(** [startListening] (lines 113-123). *)
Definition startListening (h : Host) : M unit :=
  tryCatch
    (ref ← getApp recognitionRef;
     if (ref : bool) then recognition_start h else ret tt)
    (fun _ =>
       console_error (lit "Error starting speech recognition:") ;;
       setError (lit "Failed to start voice recognition. Please try again.") ;;
       setShowError true).

(** [speakResponse] (lines 139-148). *)
Definition speakResponse (h : Host) (text : jsstring) : M unit :=
  tryCatch
    (newUtterance h text ;;
     speechSynthesis_speak h text)
    (fun _ =>
       console_error (lit "Error with speech synthesis:") ;;
       setError (lit "Failed to speak response. Please try again.") ;;
       setShowError true).

(** The callback of the countdown interval (lines 49-57): the updater of
    [setTimeLeft], run once per firing. *)
Definition countdown (h : Host) : M unit :=
  prev ← getApp timeLeft;
  if prev <=? 1
  then stopListening h ;; setTimeLeft 0
  else setTimeLeft (prev - 1).

(** [recognitionRef.current.onstart] (lines 44-58). *)
Definition onstart : M unit :=
  setIsListening true ;;
  setError (lit "") ;;
  setTimeLeft 60 ;;
  id ← setInterval;
  setTimeoutRef (Some id).

(** [result[0].transcript]: a [TypeError] when the result has no alternative. *)
Definition firstTranscript (r : SpeechRecognitionResult) : M jsstring :=
  match alternatives r with
  | a :: _ => ret (transcript a)
  | [] => throw TypeError
  end.

(** [Array.from(event.results).map(f)]. *)
Fixpoint mapM {A B} (f : A -> M B) (l : list A) : M (list B) :=
  match l with
  | [] => ret []
  | x :: l' => y ← f x; ys ← mapM f l'; ret (y :: ys)
  end.

(** [recognitionRef.current.onresult] (lines 60-71); [results] is
    [event.results]. *)
Definition onresult (h : Host) (results : list SpeechRecognitionResult) : M unit :=
  parts ← mapM firstTranscript results;
  setQuestion (join parts) ;;
  match results with
  | r :: _ => if isFinal r then stopListening h else ret tt
  | [] => throw TypeError
  end.

(** [recognitionRef.current.onerror] (lines 73-78); [err] is [event.error]. *)
Definition onerror (h : Host) (err : jsstring) : M unit :=
  console_error (lit "Speech recognition error:") ;;
  setError (lit "Error: " ++ err) ;;
  setShowError true ;;
  stopListening h.

(** [recognitionRef.current.onend] (lines 80-85). *)
Definition onend : M unit :=
  setIsListening false ;;
  t ← getApp timeoutRef;
  match (t : option positive) with
  | Some id => clearInterval id
  | None => ret tt
  end.

(** The listener of ['botResponse'] (lines 88-92). *)
Definition botResponse (h : Host) (data : jsstring) : M unit :=
  setResponse data ;;
  setIsLoading false ;;
  speakResponse h data.

(** The listener of ['error'] (lines 94-99). *)
Definition socketError (err : jsstring) : M unit :=
  setResponse (lit "Error: " ++ err) ;;
  setIsLoading false ;;
  setError err ;;
  setShowError true.

(** [handleSubmit] (lines 150-156). *)
Definition handleSubmit : M unit :=
  hostCall PreventDefault_call ;;
  q ← getApp question;
  if truthy (trim q)
  then setIsLoading true ;; socket_emit (lit "askQuestion") q
  else ret tt.

(** The body of the mount effect (lines 29-100).  Without speech recognition
    it returns at line 34: no recognition object is created and the socket
    listeners of lines 88-99 are not registered. *)
Definition mountEffect : M unit :=
  supported ← getWorld speechSupported;
  if (negb supported : bool)
  then
    setError (lit "Your browser does not support speech recognition. Please use Chrome or Edge.") ;;
    setShowError true
  else
    setRecognitionRef true ;;
    socket_on_listeners.

(** ** The rendered controls *)

(** [disabled] of the Send button (line 190). *)
Definition sendDisabled (a : App) : bool :=
  negb (truthy (trim (question a))) || isLoading a.

(** The submission of the form (lines 165 and 186-194): Send is its default
    submit button, so while Send is disabled nothing is submitted, by a click
    or by the Enter key alike; otherwise [onSubmit] runs [handleSubmit]. *)
Definition submitForm : M unit :=
  d ← getApp sendDisabled;
  if (d : bool) then ret tt else handleSubmit.

(** The listening toggle (lines 176-184), disabled without speech recognition. *)
Definition clickToggle (h : Host) : M unit :=
  supported ← getWorld speechSupported;
  if (negb supported : bool) then ret tt
  else
    l ← getApp isListening;
    if (l : bool) then stopListening h else startListening h.

(** The error Snackbar closes on a click outside it: its [onClose] (lines
    225 and 228) ignores the reason and sets [showError] to false.  [wasOpen]
    is [showError] when the click happens: a notification opened by the
    handler of the click itself is not closed by that click. *)
Definition clickAway (wasOpen : bool) : M unit :=
  if wasOpen then setShowError false else ret tt.

(** A click on a control: the handler of the control, then the click-away of
    the Snackbar. *)
Definition click (handler : M unit) : M unit :=
  wasOpen ← getApp showError;
  handler ;;
  clickAway wasOpen.

(** ** Events and their dispatch *)

Inductive event : Type :=
| RecognitionStarted
| RecognitionResult (results : list SpeechRecognitionResult)
| RecognitionError (err : jsstring)
| RecognitionEnded
| IntervalFired (id : positive)
| SocketBotResponse (data : jsstring)
| SocketErrorEvent (err : jsstring)
| ToggleClicked
| SendClicked
| TextChanged (value : jsstring)
| SnackbarClosed.

(** An event runs the handler registered for it, if any: the recognition
    handlers exist once the recognition object does, the socket listeners
    once registered, and an interval fires only while it is active.  The two
    click events are clicks on the listening toggle and on Send (or the
    implicit submission of the form, which clicks Send). *)
Definition dispatch (h : Host) (e : event) : M unit :=
  match e with
  | RecognitionStarted =>
      ref ← getApp recognitionRef; if (ref : bool) then onstart else ret tt
  | RecognitionResult results =>
      ref ← getApp recognitionRef; if (ref : bool) then onresult h results else ret tt
  | RecognitionError err =>
      ref ← getApp recognitionRef; if (ref : bool) then onerror h err else ret tt
  | RecognitionEnded =>
      ref ← getApp recognitionRef; if (ref : bool) then onend else ret tt
  | IntervalFired id =>
      ts ← getWorld timers;
      if bool_decide (id ∈ ts) then countdown h else ret tt
  | SocketBotResponse data =>
      on ← getWorld socketListeners; if (on : bool) then botResponse h data else ret tt
  | SocketErrorEvent err =>
      on ← getWorld socketListeners; if (on : bool) then socketError err else ret tt
  | ToggleClicked => click (clickToggle h)
  | SendClicked => click submitForm
  | TextChanged value => setQuestion value
  | SnackbarClosed => setShowError false
  end.

(** A run of the event loop: each event with what the host does during it.
    An exception escaping a handler is reported by the host and the loop goes
    on; the calls of all handlers are collected in order. *)
Fixpoint run (es : list (Host * event)) (w : World) : World * list call :=
  match es with
  | [] => (w, [])
  | (h, e) :: es' =>
      let o := dispatch h e w in
      let r := run es' (world o) in
      (fst r, calls o ++ snd r)
  end.

(** The state of [useState] and [useRef] at the first render. *)
Definition initialApp : App :=
  mkApp [] [] false false [] false 60 false None.

Definition initialWorld (supported : bool) : World :=
  mkWorld initialApp ∅ 1%positive false supported.

(** The component after its mount effect has run. *)
Definition mounted (supported : bool) : World :=
  world (mountEffect (initialWorld supported)).

(** ** Observations on the recorded calls *)

Definition isStop (c : call) : bool :=
  match c with RecognitionStop_call => true | _ => false end.

Definition isEmit (c : call) : bool :=
  match c with SocketEmit_call _ _ => true | _ => false end.

Definition isSpeak (c : call) : bool :=
  match c with Speak_call _ => true | _ => false end.

Definition countCalls (p : call -> bool) (cs : list call) : nat :=
  length (List.filter p cs).

(** The text the accumulator shows for an event: the join, in order, of the
    first transcript of each result. *)
Definition joinedTranscript (results : list SpeechRecognitionResult) : jsstring :=
  join (List.map (fun r => match alternatives r with
                           | a :: _ => transcript a
                           | [] => []
                           end) results).

Definition hasAlternative (r : SpeechRecognitionResult) : bool :=
  match alternatives r with [] => false | _ :: _ => true end.

(** Every result of the event carries at least one alternative. *)
Definition wellFormed (results : list SpeechRecognitionResult) : bool :=
  forallb hasAlternative results.

(** A result with the single alternative [text]. *)
Definition fragment (text : string) (final : bool) : SpeechRecognitionResult :=
  mkResult [mkAlternative (lit text)] final.

(** ** Stopping, and the invariant of the event loop *)

(** The world after a [stopListening] whose [stop()] call returns: the handle
    in [timeoutRef] is no longer active and the listening flag is off. *)
Definition stopped (w : World) : World :=
  world (setIsListening false
           (match timeoutRef (component w) with
            | Some id => world (clearInterval id w)
            | None => w
            end)).

(** The host calls of such a [stopListening], in order. *)
Definition stopCalls (w : World) : list call :=
  (if recognitionRef (component w) then [RecognitionStop_call] else []) ++
  match timeoutRef (component w) with
  | Some id => [ClearInterval_call id]
  | None => []
  end.

(** An active countdown is the one in [timeoutRef], and the session is
    listening: no countdown is armed while no capture is going on. *)
Definition consistent (w : World) : Prop :=
  forall id, id ∈ timers w ->
    timeoutRef (component w) = Some id /\ isListening (component w) = true.

(** Assumption on the capture device (spec 4.1 and 5: one session at a time,
    each ended before the next starts): a start event is delivered only when
    no session of the device is open.  [active] tells whether one is. *)
Fixpoint oneSessionAtATime (active : bool) (es : list (Host * event)) : bool :=
  match es with
  | [] => true
  | (_, RecognitionStarted) :: es' => negb active && oneSessionAtATime true es'
  | (_, RecognitionEnded) :: es' => oneSessionAtATime false es'
  | _ :: es' => oneSessionAtATime active es'
  end.

(** Whether a device session is open after an event. *)
Definition sessionAfter (active : bool) (e : event) : bool :=
  match e with
  | RecognitionStarted => true
  | RecognitionEnded => false
  | _ => active
  end.

(** The invariant of the event loop: consistency, and no timer at all while
    the device has no open session or there is no recognition object. *)
Definition loopInvariant (active : bool) (w : World) : Prop :=
  consistent w /\
  (active = false -> timers w = ∅) /\
  (recognitionRef (component w) = false -> timers w = ∅).

(** ** Concrete worlds and runs used in the examples *)

(** A browser with speech recognition, after the user has typed "hi" and
    pressed Send: the request is outstanding. *)
Definition awaiting : World :=
  fst (run [(hostOk, TextChanged (lit "hi")); (hostOk, SendClicked)] (mounted true)).

(** The recognition has started: listening, countdown armed with handle 1. *)
Definition listening : World :=
  fst (run [(hostOk, RecognitionStarted)] (mounted true)).

(** Listening with "hi" in the question field. *)
Definition listeningTyped : World :=
  fst (run [(hostOk, RecognitionStarted); (hostOk, TextChanged (lit "hi"))] (mounted true)).

(** Listening, fifty-nine firings of the countdown later: one second left. *)
Definition lastSecond : World :=
  fst (run ((hostOk, RecognitionStarted)
              :: repeat (hostOk, IntervalFired 1%positive) 59) (mounted true)).

(** A host whose [recognition.stop()] throws. *)
Definition hostStopFails : Host := mkHost false true false false.

(** A run with a failed stop, a capture error, the end of the session and a
    failed start. *)
Definition failuresRun : list (Host * event) :=
  [(hostOk, RecognitionStarted);
   (hostOk, RecognitionResult [fragment "What" false]);
   (hostStopFails, ToggleClicked);
   (hostOk, RecognitionError (lit "no-speech"));
   (hostOk, RecognitionEnded);
   (mkHost true false false false, ToggleClicked)].

(** ** Unmounting *)

(** The calls of the cleanup: host calls as before, and [socket.off]. *)
Inductive unmountCall : Type :=
| HostCall (c : call)
| SocketOff_call (name : jsstring).

Record UnmountOut : Type := mkUnmountOut {
  unmountResult : Completion unit;
  unmountWorld : World;
  unmountCalls : list unmountCall
}.

(** The first two statements of the cleanup returned by the mount effect
    (lines 102-107); they are not inside a [try]. *)
Definition cleanupCapture (h : Host) : M unit :=
  ref ← getApp recognitionRef;
  (if (ref : bool) then recognition_stop h else ret tt) ;;
  t ← getApp timeoutRef;
  match (t : option positive) with
  | Some id => clearInterval id
  | None => ret tt
  end.

(** The cleanup of the mount effect (lines 101-110): [socket.off] for both
    events comes last, so it is not reached when [stop()] throws. *)
Definition unmountCleanup (h : Host) (w : World) : UnmountOut :=
  let o := cleanupCapture h w in
  match result o with
  | Normal _ =>
      mkUnmountOut (Normal tt)
        (mkWorld (component (world o)) (timers (world o)) (nextHandle (world o)) false
                 (speechSupported (world o)))
        (List.map HostCall (calls o)
           ++ [SocketOff_call (lit "botResponse"); SocketOff_call (lit "error")])
  | Abrupt e => mkUnmountOut (Abrupt e) (world o) (List.map HostCall (calls o))
  end.

(** Unmounting the component: the effect returned a cleanup only when it did
    not return early (line 34). *)
Definition unmount (h : Host) (w : World) : UnmountOut :=
  if speechSupported w then unmountCleanup h w else mkUnmountOut (Normal tt) w [].

(** ** What is rendered *)


(** ** Further observations *)

Definition isStart (c : call) : bool :=
  match c with RecognitionStart_call => true | _ => false end.

(** Calls on the recognition object or on the interval timers. *)
Definition isCaptureCall (c : call) : bool :=
  match c with
  | RecognitionStart_call | RecognitionStop_call
  | SetInterval_call _ | ClearInterval_call _ => true
  | _ => false
  end.

(** Some code unit of the string is not white space. *)
Definition hasVisibleCodeUnit (s : jsstring) : bool :=
  existsb (fun c => negb (isWhiteSpace c)) s.

(** The events of the socket that resolve a request. *)
Definition isResolution (e : event) : bool :=
  match e with
  | SocketBotResponse _ | SocketErrorEvent _ => true
  | _ => false
  end.

Definition countResolutions (es : list (Host * event)) : nat :=
  length (List.filter (fun he => isResolution (snd he)) es).

(** The events of the capture side: the recognition object, the countdown
    and the listening toggle. *)
Definition isCaptureEvent (e : event) : bool :=
  match e with
  | RecognitionStarted | RecognitionResult _ | RecognitionError _
  | RecognitionEnded | IntervalFired _ | ToggleClicked => true
  | _ => false
  end.

(** The capture part of the world. *)
Definition captureState (w : World) : bool * gset positive * option positive :=
  (isListening (component w), timers w, timeoutRef (component w)).

(** The order in which the device lists its results: the final ones come
    first, followed by the interim ones (no interim result precedes a final
    one). *)
Fixpoint finalsFirst (results : list SpeechRecognitionResult) : bool :=
  match results with
  | [] => true
  | r :: rs =>
      if isFinal r then finalsFirst rs
      else forallb (fun r' => negb (isFinal r')) rs
  end.

(** The first transcripts of the results, one after the other in the order
    of the results, with nothing between them. *)
Fixpoint transcriptsInOrder (results : list SpeechRecognitionResult) : jsstring :=
  match results with
  | [] => []
  | r :: rs =>
      match alternatives r with
      | a :: _ => transcript a
      | [] => []
      end ++ transcriptsInOrder rs
  end.

(** The click events. *)
Definition isClick (e : event) : bool :=
  match e with
  | ToggleClicked | SendClicked => true
  | _ => false
  end.

(** One when no request is outstanding, zero otherwise. *)
Definition idleSlot (w : World) : nat :=
  if isLoading (component w) then 0%nat else 1%nat.

(** The calls a submit makes: [preventDefault] and the emission. *)
Definition isSubmitCall (c : call) : bool :=
  match c with
  | PreventDefault_call | SocketEmit_call _ _ => true
  | _ => false
  end.

(** * Properties *)

(** ** Unfolding the handlers *)

(** Handlers are unfolded on a world and a host given by their fields, so that
    every projection meets a constructor. *)
Ltac js_unfold :=
  cbv [stopListening startListening speakResponse countdown onstart onerror onend
       botResponse socketError handleSubmit mountEffect submitForm clickToggle click clickAway
       recognition_start recognition_stop newUtterance speechSynthesis_speak
       socket_emit console_error socket_on_listeners setInterval clearInterval
       setQuestion setResponse setIsListening setIsLoading setError setShowError
       setTimeLeft setRecognitionRef setTimeoutRef modifyApp updApp getApp getWorld
       hostCall tryCatch bind ret throw mbind mret M_bind M_ret sendDisabled
       result world calls component timers nextHandle socketListeners speechSupported
       question response isListening isLoading error showError timeLeft
       recognitionRef timeoutRef startThrows stopThrows utteranceThrows speakThrows
       Datatypes.app negb] in *.

(** Case analysis on the flags and options a handler branches on. *)
Ltac js_cases :=
  repeat (match goal with
          | |- context [match ?b with _ => _ end] =>
              lazymatch b with
              | context [match _ with _ => _ end] => fail
              | _ => destruct b
              end
          end; cbv beta iota).

Ltac destruct_world w :=
  destruct w as [[?q ?r ?l ?ld ?e ?se ?tl ?rr ?tr] ?ts ?nh ?sl ?ss].

Ltac destruct_host h := destruct h as [?hs ?hp ?hu ?hk].

(** The transcripts of the results are read without touching the world; the
    read throws exactly when some result has no alternative. *)
Lemma mapM_firstTranscript results w :
  mapM firstTranscript results w =
  mkOut (if wellFormed results
         then Normal (List.map (fun r => match alternatives r with
                                         | a :: _ => transcript a
                                         | [] => []
                                         end) results)
         else Abrupt TypeError) w [].
Proof.
  induction results as [|r rs IH]; [reflexivity|].
  change (wellFormed (r :: rs)) with (hasAlternative r && wellFormed rs).
  cbn [mapM List.map]. set (m := mapM firstTranscript rs) in *.
  unfold mbind, M_bind, bind, firstTranscript, hasAlternative.
  destruct (alternatives r) as [|a alts]; [reflexivity|].
  cbv [ret result world calls]. rewrite IH. cbn [andb result world calls].
  destruct (wellFormed rs); reflexivity.
Qed.

(** [onresult] on a well-formed event: the question becomes the joined
    transcript, then the finality of the first result decides. *)
Lemma onresult_wellFormed h results w :
  wellFormed results = true ->
  onresult h results w =
  let w1 := world (setQuestion (joinedTranscript results) w) in
  match results with
  | r :: _ => if isFinal r then stopListening h w1 else mkOut (Normal tt) w1 []
  | [] => mkOut (Abrupt TypeError) w1 []
  end.
Proof.
  intros Hwf. unfold onresult, mbind, M_bind. unfold bind at 1.
  rewrite mapM_firstTranscript, Hwf. cbn [result world calls List.app].
  fold (joinedTranscript results).
  unfold bind, setQuestion, modifyApp. cbn [result world calls List.app].
  destruct results as [|r rs]; [reflexivity|].
  destruct (isFinal r); [|reflexivity].
  destruct (stopListening h _); reflexivity.
Qed.

(** With a result that has no alternative the handler throws before any
    state is set. *)
Lemma onresult_illFormed h results w :
  wellFormed results = false ->
  onresult h results w = mkOut (Abrupt TypeError) w [].
Proof.
  intros Hwf. unfold onresult, mbind, M_bind. unfold bind at 1.
  rewrite mapM_firstTranscript, Hwf. reflexivity.
Qed.

(** ** Submitting (C3) *)

(** [handleSubmit] with non-empty text: the loading flag is set and the
    question is emitted, whatever the flags were. *)
Lemma handleSubmit_nonempty w :
  truthy (trim (question (component w))) = true ->
  handleSubmit w =
  mkOut (Normal tt) (world (setIsLoading true w))
        [PreventDefault_call; SocketEmit_call (lit "askQuestion") (question (component w))].
Proof.
  intros Hq. destruct_world w. js_unfold. rewrite Hq. reflexivity.
Qed.

Lemma handleSubmit_empty w :
  truthy (trim (question (component w))) = false ->
  handleSubmit w = mkOut (Normal tt) w [PreventDefault_call].
Proof.
  intros Hq. destruct_world w. js_unfold. rewrite Hq. reflexivity.
Qed.

(** C3, as stated, fails: a submit of "hi" while listening leaves the
    listening flag set and the countdown armed, and makes no [stop()] call. *)
Lemma C3_submit_leaves_capture_running :
  isListening (component listeningTyped) = true /\
  truthy (trim (question (component listeningTyped))) = true /\
  isListening (component (world (dispatch hostOk SendClicked listeningTyped))) = true /\
  bool_decide (1%positive ∈ timers (world (dispatch hostOk SendClicked listeningTyped))) = true /\
  countCalls isStop (calls (dispatch hostOk SendClicked listeningTyped)) = 0%nat.
Proof. vm_compute. repeat split. Qed.

(** C3 (amended): a submit of non-empty text while listening does not touch
    the capture: the listening flag stays set, the countdown handle and the
    active timers are unchanged, no [stop()] and no [clearInterval] is called;
    the submit only sets the loading flag and emits the question. *)
Theorem C3_submit_does_not_stop_capture w :
  isListening (component w) = true ->
  truthy (trim (question (component w))) = true ->
  let o := handleSubmit w in
  isListening (component (world o)) = true /\
  timeoutRef (component (world o)) = timeoutRef (component w) /\
  timers (world o) = timers w /\
  isLoading (component (world o)) = true /\
  calls o = [PreventDefault_call;
             SocketEmit_call (lit "askQuestion") (question (component w))].
Proof.
  intros Hl Hq o. subst o. rewrite (handleSubmit_nonempty w Hq).
  destruct_world w. cbn in Hl. subst. repeat split.
Qed.

Lemma C3_submit_does_not_stop_capture_witness :
  let o := handleSubmit listeningTyped in
  isListening (component (world o)) = true /\
  timeoutRef (component (world o)) = timeoutRef (component listeningTyped) /\
  timers (world o) = timers listeningTyped /\
  isLoading (component (world o)) = true /\
  calls o = [PreventDefault_call;
             SocketEmit_call (lit "askQuestion") (question (component listeningTyped))].
Proof.
  apply (C3_submit_does_not_stop_capture listeningTyped); reflexivity.
Defined.

(** ** Stopping the capture *)

Lemma stopListening_returns h w :
  recognitionRef (component w) && stopThrows h = false ->
  stopListening h w = mkOut (Normal tt) (stopped w) (stopCalls w).
Proof.
  intros H. destruct_world w. destruct_host h. unfold stopped, stopCalls.
  js_unfold. destruct rr, hp, tr; try discriminate H; reflexivity.
Qed.

(** A throwing [stop()] is caught and logged; the rest of the [try] block is
    skipped, so nothing of the world changes. *)
Lemma stopListening_throws h w :
  recognitionRef (component w) = true ->
  stopThrows h = true ->
  stopListening h w =
  mkOut (Normal tt) w
        [RecognitionStop_call; ConsoleError_call (lit "Error stopping speech recognition:")].
Proof.
  intros Hr Ht. destruct_world w. destruct_host h. js_unfold. subst. reflexivity.
Qed.

Lemma not_elem_of_disarm id (ts : gset positive) : id ∉ disarm id ts.
Proof. unfold disarm. rewrite elem_of_difference, elem_of_singleton. tauto. Qed.

Lemma disarm_inactive id (ts : gset positive) : id ∉ ts -> disarm id ts = ts.
Proof.
  intros Hid. unfold disarm. apply set_eq. intros x.
  rewrite elem_of_difference, elem_of_singleton. split; [tauto|].
  intros Hx. split; [exact Hx|]. intros ->. exact (Hid Hx).
Qed.

Lemma stopped_isListening w : isListening (component (stopped w)) = false.
Proof. destruct_world w. unfold stopped. js_unfold. destruct tr; reflexivity. Qed.

Lemma stopped_timers w id :
  timeoutRef (component w) = Some id -> id ∉ timers (stopped w).
Proof.
  intros H. destruct_world w. cbn in H. subst. unfold stopped. js_unfold.
  apply not_elem_of_disarm.
Qed.

(** Everything but the listening flag and the active timers is kept. *)
Lemma stopped_component w :
  component (stopped w) = component (world (setIsListening false w)).
Proof. destruct_world w. unfold stopped. js_unfold. destruct tr; reflexivity. Qed.

(** ** The handlers in closed form *)

Lemma truthy_trimStart s : truthy (trimStart s) = hasVisibleCodeUnit s.
Proof.
  unfold hasVisibleCodeUnit. induction s as [|c s IH]; [reflexivity|].
  cbn [trimStart existsb]. destruct (isWhiteSpace c); [exact IH|reflexivity].
Qed.

Lemma hasVisibleCodeUnit_trimStart s :
  hasVisibleCodeUnit (trimStart s) = hasVisibleCodeUnit s.
Proof.
  unfold hasVisibleCodeUnit. induction s as [|c s IH]; [reflexivity|].
  cbn [trimStart existsb]. destruct (isWhiteSpace c) eqn:E; [exact IH|].
  cbn [existsb]. rewrite E. reflexivity.
Qed.

Lemma hasVisibleCodeUnit_rev s : hasVisibleCodeUnit (rev s) = hasVisibleCodeUnit s.
Proof.
  unfold hasVisibleCodeUnit. induction s as [|c s IH]; [reflexivity|].
  cbn [rev existsb]. rewrite existsb_app, IH. cbn [existsb].
  rewrite orb_false_r. apply orb_comm.
Qed.

Lemma truthy_rev (s : jsstring) : truthy (rev s) = truthy s.
Proof.
  destruct s as [|c s]; [reflexivity|]. cbn [rev].
  destruct (rev s); reflexivity.
Qed.

(** The trimmed string is non-empty exactly when the string has a code unit
    that is not white space. *)
Lemma truthy_trim s : truthy (trim s) = hasVisibleCodeUnit s.
Proof.
  unfold trim, trimEnd. rewrite truthy_rev, truthy_trimStart.
  rewrite hasVisibleCodeUnit_rev. apply hasVisibleCodeUnit_trimStart.
Qed.

Lemma handleSubmit_eq w :
  handleSubmit w =
  if hasVisibleCodeUnit (question (component w))
  then mkOut (Normal tt) (world (setIsLoading true w))
             [PreventDefault_call;
              SocketEmit_call (lit "askQuestion") (question (component w))]
  else mkOut (Normal tt) w [PreventDefault_call].
Proof.
  rewrite <- truthy_trim. destruct (truthy (trim (question (component w)))) eqn:E.
  - apply handleSubmit_nonempty. exact E.
  - apply handleSubmit_empty. exact E.
Qed.

Lemma stopListening_eq h w :
  stopListening h w =
  if recognitionRef (component w) && stopThrows h
  then mkOut (Normal tt) w
         [RecognitionStop_call; ConsoleError_call (lit "Error stopping speech recognition:")]
  else mkOut (Normal tt) (stopped w) (stopCalls w).
Proof.
  destruct (recognitionRef (component w) && stopThrows h) eqn:E.
  - apply andb_prop in E as [Hr Ht]. apply stopListening_throws; assumption.
  - apply stopListening_returns. exact E.
Qed.

Lemma startListening_eq h w :
  startListening h w =
  if recognitionRef (component w)
  then if startThrows h
       then mkOut (Normal tt)
              (world (setShowError true
                 (world (setError (lit "Failed to start voice recognition. Please try again.") w))))
              [RecognitionStart_call; ConsoleError_call (lit "Error starting speech recognition:")]
       else mkOut (Normal tt) w [RecognitionStart_call]
  else mkOut (Normal tt) w [].
Proof. destruct_world w; destruct_host h. destruct rr, hs; reflexivity. Qed.

Lemma speakResponse_eq h text w :
  speakResponse h text w =
  let failed := world (setShowError true
                  (world (setError (lit "Failed to speak response. Please try again.") w))) in
  if utteranceThrows h
  then mkOut (Normal tt) failed [ConsoleError_call (lit "Error with speech synthesis:")]
  else if speakThrows h
       then mkOut (Normal tt) failed
              [NewUtterance_call text; Speak_call text;
               ConsoleError_call (lit "Error with speech synthesis:")]
       else mkOut (Normal tt) w [NewUtterance_call text; Speak_call text].
Proof. destruct_world w; destruct_host h. destruct hu, hk; reflexivity. Qed.

Lemma botResponse_eq h data w :
  botResponse h data w =
  speakResponse h data (world (setIsLoading false (world (setResponse data w)))).
Proof.
  unfold botResponse, mbind, M_bind, bind, setResponse, setIsLoading, modifyApp.
  cbn [result world calls List.app]. destruct (speakResponse h data _); reflexivity.
Qed.

Lemma onerror_eq h err w :
  onerror h err w =
  let o := stopListening h
             (world (setShowError true (world (setError (lit "Error: " ++ err) w)))) in
  mkOut (result o) (world o) (ConsoleError_call (lit "Speech recognition error:") :: calls o).
Proof.
  unfold onerror, mbind, M_bind, bind, console_error, hostCall, setError, setShowError,
    modifyApp. cbn [result world calls List.app]. reflexivity.
Qed.

Lemma onend_eq w :
  onend w =
  mkOut (Normal tt) (stopped w)
        (match timeoutRef (component w) with
         | Some id => [ClearInterval_call id]
         | None => []
         end).
Proof. destruct_world w. unfold stopped. destruct tr; reflexivity. Qed.

Lemma countdown_eq h w :
  countdown h w =
  if timeLeft (component w) <=? 1
  then mkOut (Normal tt) (world (setTimeLeft 0 (world (stopListening h w))))
             (calls (stopListening h w))
  else mkOut (Normal tt) (world (setTimeLeft (timeLeft (component w) - 1) w)) [].
Proof.
  unfold countdown, mbind, M_bind. unfold bind at 1. unfold getApp.
  cbn [result world calls List.app].
  destruct (timeLeft (component w) <=? 1).
  - unfold bind. rewrite stopListening_eq.
    destruct (recognitionRef (component w) && stopThrows h);
      cbn [result world calls]; unfold setTimeLeft, modifyApp; cbn [result world calls];
      rewrite app_nil_r; reflexivity.
  - unfold setTimeLeft, modifyApp. reflexivity.
Qed.

Lemma onstart_eq w :
  onstart w =
  mkOut (Normal tt)
        (mkWorld (mkApp (question (component w)) (response (component w)) true
                        (isLoading (component w)) (lit "") (showError (component w)) 60
                        (recognitionRef (component w)) (Some (nextHandle w)))
                 (arm (nextHandle w) (timers w)) (Pos.succ (nextHandle w))
                 (socketListeners w) (speechSupported w))
        [SetInterval_call (nextHandle w)].
Proof. destruct_world w. reflexivity. Qed.

(** A click whose handler returns: the outcome of the handler, with the
    notification closed if it was open. *)
Lemma click_eq handler w :
  click handler w =
  let o := handler w in
  match result o with
  | Normal _ =>
      mkOut (Normal tt)
            (if showError (component w)
             then world (setShowError false (world o)) else world o)
            (calls o)
  | Abrupt e => mkOut (Abrupt e) (world o) (calls o)
  end.
Proof.
  unfold click, clickAway, mbind, M_bind, bind, getApp.
  cbn [result world calls List.app]. cbn zeta.
  destruct (handler w) as [[[]|e] w' cs]; cbn [result world calls]; [|reflexivity].
  destruct (showError (component w)); unfold setShowError, modifyApp, ret;
    cbn [result world calls]; rewrite app_nil_r; reflexivity.
Qed.

(** What an event runs, without the plumbing. *)
Lemma dispatch_eq h e w :
  dispatch h e w =
  match e with
  | RecognitionStarted =>
      if recognitionRef (component w) then onstart w else mkOut (Normal tt) w []
  | RecognitionResult results =>
      if recognitionRef (component w) then onresult h results w else mkOut (Normal tt) w []
  | RecognitionError err =>
      if recognitionRef (component w) then onerror h err w else mkOut (Normal tt) w []
  | RecognitionEnded =>
      if recognitionRef (component w) then onend w else mkOut (Normal tt) w []
  | IntervalFired id =>
      if bool_decide (id ∈ timers w) then countdown h w else mkOut (Normal tt) w []
  | SocketBotResponse data =>
      if socketListeners w then botResponse h data w else mkOut (Normal tt) w []
  | SocketErrorEvent err =>
      if socketListeners w then socketError err w else mkOut (Normal tt) w []
  | ToggleClicked =>
      let o := if speechSupported w
               then if isListening (component w)
                    then stopListening h w else startListening h w
               else mkOut (Normal tt) w [] in
      mkOut (Normal tt)
            (if showError (component w)
             then world (setShowError false (world o)) else world o)
            (calls o)
  | SendClicked =>
      let o := if sendDisabled (component w)
               then mkOut (Normal tt) w [] else handleSubmit w in
      mkOut (Normal tt)
            (if showError (component w)
             then world (setShowError false (world o)) else world o)
            (calls o)
  | TextChanged value => setQuestion value w
  | SnackbarClosed => setShowError false w
  end.
Proof.
  destruct e; unfold dispatch; try rewrite click_eq;
    unfold clickToggle, submitForm, mbind, M_bind, bind, getApp, getWorld;
    cbn [result world calls List.app]; try reflexivity.
  - destruct (recognitionRef (component w)); [destruct (onstart w)|]; reflexivity.
  - destruct (recognitionRef (component w)); [destruct (onresult _ _ w)|]; reflexivity.
  - destruct (recognitionRef (component w)); [destruct (onerror _ _ w)|]; reflexivity.
  - destruct (recognitionRef (component w)); [destruct (onend w)|]; reflexivity.
  - destruct (bool_decide _); [destruct (countdown h w)|]; reflexivity.
  - destruct (socketListeners w); [destruct (botResponse _ _ w)|]; reflexivity.
  - destruct (socketListeners w); [destruct (socketError _ w)|]; reflexivity.
  - destruct (speechSupported w); cbn [negb]; [|reflexivity].
    destruct (isListening (component w));
      rewrite ?stopListening_eq, ?startListening_eq;
      repeat match goal with |- context [if ?b then _ else _] => destruct b end;
      reflexivity.
  - destruct (sendDisabled (component w)); [reflexivity|].
    rewrite handleSubmit_eq.
    repeat match goal with |- context [if ?b then _ else _] => destruct b end;
    reflexivity.
Qed.

(** As [js_cases], with the connectives of the conditions evaluated first. *)
Ltac js_split :=
  cbv beta iota delta [orb andb];
  repeat (match goal with
          | |- context [match ?b with _ => _ end] =>
              lazymatch b with
              | context [match _ with _ => _ end] => fail
              | _ => destruct b
              end
          end; cbv beta iota delta [orb andb]).

(** The handlers other than [onresult] in closed form, on a world and a host
    given by their fields, one goal per branch. *)
Ltac js_closed h w :=
  rewrite ?onerror_eq, ?onend_eq, ?countdown_eq, ?botResponse_eq, ?speakResponse_eq,
    ?stopListening_eq, ?startListening_eq, ?handleSubmit_eq, ?onstart_eq;
  destruct_world w; destruct_host h;
  unfold stopped, stopCalls, sendDisabled; js_unfold; js_split.

(** A property of the outcomes of [onresult] holds of it. *)
Lemma onresult_cases (P : Out unit -> Prop) h results w :
  P (mkOut (Abrupt TypeError) w []) ->
  (forall w1, w1 = world (setQuestion (joinedTranscript results) w) ->
     P (mkOut (Abrupt TypeError) w1 []) /\
     P (mkOut (Normal tt) w1 []) /\
     P (stopListening h w1)) ->
  P (onresult h results w).
Proof.
  intros Hill Hwf. destruct (wellFormed results) eqn:E.
  - rewrite (onresult_wellFormed _ _ _ E). cbn zeta.
    destruct (Hwf _ eq_refl) as (H1 & H2 & H3).
    destruct results as [|r0 rs]; [exact H1|]. destruct (isFinal r0); assumption.
  - rewrite (onresult_illFormed _ _ _ E). exact Hill.
Qed.

(** Every property of the outcomes below holds of a dispatched result event. *)
Lemma dispatch_result_cases (P : Out unit -> Prop) h results w :
  P (mkOut (Normal tt) w []) ->
  P (mkOut (Abrupt TypeError) w []) ->
  (forall w1, w1 = world (setQuestion (joinedTranscript results) w) ->
     P (mkOut (Abrupt TypeError) w1 []) /\
     P (mkOut (Normal tt) w1 []) /\
     P (stopListening h w1)) ->
  P (dispatch h (RecognitionResult results) w).
Proof.
  intros Hoff Hill Hwf. rewrite dispatch_eq.
  destruct (recognitionRef (component w)); [|exact Hoff].
  apply onresult_cases; assumption.
Qed.

Lemma countCalls_app p cs1 cs2 :
  countCalls p (cs1 ++ cs2) = (countCalls p cs1 + countCalls p cs2)%nat.
Proof. unfold countCalls. rewrite List.filter_app, length_app. reflexivity. Qed.


(** ** Ending the capture on a final result, on expiry, and stopping twice
       (C2, C4, C9) *)

(** A result event whose first result carries [isFinal] (each result having
    an alternative to read), with a [stop()] that returns, ends the capture:
    [stop()] is called once, the listening flag is off, and the countdown
    handle has been cleared. *)
Lemma onresult_first_final_stops_capture h r rs w :
  recognitionRef (component w) = true ->
  stopThrows h = false ->
  wellFormed (r :: rs) = true ->
  isFinal r = true ->
  let o := onresult h (r :: rs) w in
  countCalls isStop (calls o) = 1%nat /\
  isListening (component (world o)) = false /\
  (forall id, timeoutRef (component w) = Some id ->
     (id ∉ timers (world o)) /\ In (ClearInterval_call id) (calls o)).
Proof.
  intros Hr Hs Hwf Hf o. subst o.
  rewrite (onresult_wellFormed _ _ _ Hwf). cbn zeta. rewrite Hf.
  set (w1 := world (setQuestion _ w)).
  assert (Hr1 : recognitionRef (component w1) = true) by (destruct_world w; exact Hr).
  assert (Ht1 : timeoutRef (component w1) = timeoutRef (component w))
    by (destruct_world w; reflexivity).
  rewrite stopListening_returns by (rewrite Hs; apply andb_false_r).
  cbn [world calls]. split; [|split].
  - unfold stopCalls. rewrite Hr1. destruct (timeoutRef (component w1)); reflexivity.
  - apply stopped_isListening.
  - intros id Hid. split.
    + apply stopped_timers. congruence.
    + unfold stopCalls. rewrite Ht1, Hid. apply in_or_app. right. left. reflexivity.
Qed.

(** When the final results come first, a final result anywhere in the event
    means that the first result is final. *)
Lemma finalsFirst_first_final r rs :
  finalsFirst (r :: rs) = true ->
  existsb isFinal (r :: rs) = true ->
  isFinal r = true.
Proof.
  cbn [finalsFirst existsb]. destruct (isFinal r); [reflexivity|].
  cbn [orb]. intros Hall Hex. exfalso.
  induction rs as [|r' rs IH]; [discriminate Hex|].
  cbn [forallb existsb] in Hall, Hex.
  destruct (isFinal r'); [discriminate Hall|]. cbn [negb andb orb] in Hall, Hex.
  exact (IH Hall Hex).
Qed.

(** C2: for every result event as the device delivers it (final results
    listed before interim ones, each result with an alternative to read):
    whenever any result of the event carries [isFinal], the capture phase
    ends, provided [stop()] returns: [stop()] is called on the recognition
    object (exactly once), the listening flag becomes false, and the
    countdown interval held in [timeoutRef] is cleared. *)
Theorem C2_final_result_stops_capture h results w :
  recognitionRef (component w) = true ->
  stopThrows h = false ->
  wellFormed results = true ->
  finalsFirst results = true ->
  existsb isFinal results = true ->
  let o := onresult h results w in
  countCalls isStop (calls o) = 1%nat /\
  isListening (component (world o)) = false /\
  (forall id, timeoutRef (component w) = Some id ->
     (id ∉ timers (world o)) /\ In (ClearInterval_call id) (calls o)).
Proof.
  intros Hr Hs Hwf Hord Hex. destruct results as [|r rs]; [discriminate Hex|].
  apply onresult_first_final_stops_capture; try assumption.
  apply (finalsFirst_first_final r rs); assumption.
Qed.

(** Two final results followed by an interim one. *)
Lemma C2_final_result_stops_capture_witness :
  let results := [fragment "What " true; fragment "time " true; fragment "is it" false] in
  let o := onresult hostOk results listening in
  countCalls isStop (calls o) = 1%nat /\
  isListening (component (world o)) = false /\
  (forall id, timeoutRef (component listening) = Some id ->
     (id ∉ timers (world o)) /\ In (ClearInterval_call id) (calls o)).
Proof.
  apply (C2_final_result_stops_capture hostOk
           [fragment "What " true; fragment "time " true; fragment "is it" false]
           listening); reflexivity.
Defined.

(** The countdown callback above one second left only counts down. *)
Lemma countdown_running h w :
  1 < timeLeft (component w) ->
  countdown h w =
  mkOut (Normal tt) (world (setTimeLeft (timeLeft (component w) - 1) w)) [].
Proof.
  intros Ht. rewrite countdown_eq.
  destruct (Z.leb_spec (timeLeft (component w)) 1); [lia|reflexivity].
Qed.

(** At one second left (or less) it stops the capture and shows zero. *)
Lemma countdown_expires h w :
  timeLeft (component w) <= 1 ->
  recognitionRef (component w) && stopThrows h = false ->
  countdown h w =
  mkOut (Normal tt) (world (setTimeLeft 0 (stopped w))) (stopCalls w).
Proof.
  intros Ht Hs. rewrite countdown_eq.
  destruct (Z.leb_spec (timeLeft (component w)) 1); [|lia].
  rewrite (stopListening_returns _ _ Hs). reflexivity.
Qed.

(** Scenario C: the recognition starts and nothing else happens for sixty
    firings of the countdown: the session is idle again, the countdown is
    cleared, [stop()] was called once over the whole run and no error shows. *)
Lemma scenario_C_sixty_ticks :
  let r := run ((hostOk, RecognitionStarted)
                  :: repeat (hostOk, IntervalFired 1%positive) 60) (mounted true) in
  isListening (component (fst r)) = false /\
  timeLeft (component (fst r)) = 0 /\
  bool_decide (1%positive ∈ timers (fst r)) = false /\
  countCalls isStop (snd r) = 1%nat /\
  showError (component (fst r)) = false /\
  error (component (fst r)) = [].
Proof. vm_compute. repeat split. Qed.

(** C4, as stated, fails: when the final fragment is delivered after the
    countdown has expired (the device answers [stop()] with what it heard),
    [onresult] calls [stop()] again: twice over the session. *)
Lemma C4_final_fragment_after_expiry_stops_twice :
  let r := run ((hostOk, RecognitionStarted)
                  :: repeat (hostOk, IntervalFired 1%positive) 60
                  ++ [(hostOk, RecognitionResult [fragment "What time is it?" true])])
               (mounted true) in
  isListening (component (fst r)) = false /\
  countCalls isStop (snd r) = 2%nat.
Proof. vm_compute. repeat split. Qed.

(** C4 (amended): when the countdown fires with at most one second left in a
    listening session (recognition object present, handle [id] in
    [timeoutRef] and active, [stop()] returning), that firing calls [stop()]
    exactly once, clears the interval, turns the listening flag off, shows
    zero seconds and leaves the error state as it was. *)
Theorem C4_countdown_expiry_stops_once h id w :
  recognitionRef (component w) = true ->
  stopThrows h = false ->
  timeoutRef (component w) = Some id ->
  id ∈ timers w ->
  timeLeft (component w) <= 1 ->
  let o := dispatch h (IntervalFired id) w in
  calls o = [RecognitionStop_call; ClearInterval_call id] /\
  countCalls isStop (calls o) = 1%nat /\
  isListening (component (world o)) = false /\
  (id ∉ timers (world o)) /\
  timeLeft (component (world o)) = 0 /\
  error (component (world o)) = error (component w) /\
  showError (component (world o)) = showError (component w).
Proof.
  intros Hr Hs Hid Hin Ht o. subst o.
  unfold dispatch, mbind, M_bind, bind, getWorld. cbn [result world calls List.app].
  rewrite (bool_decide_eq_true_2 _ Hin).
  rewrite countdown_expires by (try rewrite Hs; auto using andb_false_r).
  cbn [result world calls].
  assert (Hc : calls (mkOut (Normal tt) w (stopCalls w)) =
               [RecognitionStop_call; ClearInterval_call id])
    by (cbn [calls]; unfold stopCalls; rewrite Hr, Hid; reflexivity).
  cbn [calls] in Hc. rewrite Hc.
  pose proof (stopped_isListening w) as Hl.
  pose proof (stopped_timers w id Hid) as Hn.
  pose proof (stopped_component w) as Hcomp.
  destruct (stopped w) as [a' ts' nh' sl' ss']. cbn in *.
  destruct a'. destruct_world w. cbn in *. inversion Hcomp. subst.
  repeat split; auto.
Qed.

Lemma C4_countdown_expiry_stops_once_witness :
  let w := lastSecond in
  let o := dispatch hostOk (IntervalFired 1%positive) w in
  calls o = [RecognitionStop_call; ClearInterval_call 1%positive] /\
  countCalls isStop (calls o) = 1%nat /\
  isListening (component (world o)) = false /\
  (1%positive ∉ timers (world o)) /\
  timeLeft (component (world o)) = 0 /\
  error (component (world o)) = error (component w) /\
  showError (component (world o)) = showError (component w).
Proof.
  apply (C4_countdown_expiry_stops_once hostOk 1%positive lastSecond);
    [vm_compute; reflexivity | reflexivity | vm_compute; reflexivity
    | vm_compute; reflexivity | vm_compute; discriminate].
Defined.

(** C9: on an inactive session (listening flag off, the handle left in
    [timeoutRef], if any, no longer active) [stopListening] changes nothing
    of the world, whether the device's [stop()] returns or throws: no
    exception escapes, the error state is as before, the only host calls are
    [stop()] on the idle device, [clearInterval] on the inactive handle and,
    when [stop()] threw, a console log; and calling it twice gives the same
    world as calling it once. *)
Theorem C9_stopListening_inactive_noop h h' w :
  isListening (component w) = false ->
  (forall id, timeoutRef (component w) = Some id -> id ∉ timers w) ->
  let o := stopListening h w in
  result o = Normal tt /\
  world o = w /\
  world (stopListening h' (world o)) = world o /\
  error (component (world o)) = error (component w) /\
  showError (component (world o)) = showError (component w) /\
  Forall (fun c => c = RecognitionStop_call \/
                   (exists id, c = ClearInterval_call id /\ id ∉ timers w) \/
                   (exists msg, c = ConsoleError_call msg)) (calls o).
Proof.
  intros Hl Hid o.
  assert (Hw : forall k, world (stopListening k w) = w).
  { intros k. destruct (recognitionRef (component w) && stopThrows k) eqn:E.
    - apply andb_prop in E as [Hr Ht]. rewrite stopListening_throws; auto.
    - rewrite stopListening_returns by exact E. cbn [world].
      destruct_world w. cbn in Hl, Hid. subst. unfold stopped. js_unfold.
      destruct tr as [id|]; [|reflexivity].
      rewrite disarm_inactive; [reflexivity|]. apply Hid. reflexivity. }
  subst o. rewrite !Hw. repeat split.
  - destruct (recognitionRef (component w) && stopThrows h) eqn:E.
    + apply andb_prop in E as [Hr Ht]. rewrite stopListening_throws; auto.
    + rewrite stopListening_returns by exact E. reflexivity.
  - destruct (recognitionRef (component w) && stopThrows h) eqn:E.
    + apply andb_prop in E as [Hr Ht]. rewrite stopListening_throws by auto.
      cbn [calls]. constructor; [left; reflexivity|].
      constructor; [|constructor]. right. right. eauto.
    + rewrite stopListening_returns by exact E. cbn [calls]. unfold stopCalls.
      apply Forall_app. split.
      * destruct (recognitionRef (component w)); [|constructor].
        constructor; [left; reflexivity|constructor].
      * destruct (timeoutRef (component w)) as [id|] eqn:Et; [|constructor].
        constructor; [|constructor].
        right. left. exists id. split; [reflexivity|]. apply Hid. reflexivity.
Qed.

Lemma C9_stopListening_inactive_noop_witness :
  let w := fst (run [(hostOk, RecognitionStarted); (hostOk, RecognitionEnded)]
                    (mounted true)) in
  let o := stopListening hostStopFails w in
  result o = Normal tt /\
  world o = w /\
  world (stopListening hostOk (world o)) = world o /\
  error (component (world o)) = error (component w) /\
  showError (component (world o)) = showError (component w) /\
  Forall (fun c => c = RecognitionStop_call \/
                   (exists id, c = ClearInterval_call id /\ id ∉ timers w) \/
                   (exists msg, c = ConsoleError_call msg)) (calls o).
Proof.
  apply (C9_stopListening_inactive_noop hostStopFails hostOk
           (fst (run [(hostOk, RecognitionStarted); (hostOk, RecognitionEnded)]
                     (mounted true)))).
  - reflexivity.
  - intros id Hid. vm_compute in Hid. injection Hid as <-. vm_compute. discriminate.
Defined.

(** ** Submitting while a request is outstanding (C1) *)

(** C1: in every state with a request outstanding (loading flag set) the
    submit is rejected: the form submission through the disabled Send control
    runs nothing, so it makes no host call and leaves the whole world
    unchanged; the click that carries it emits nothing and leaves the
    question, the response, the loading flag and the error as they are (the
    only thing a click can do then is close an open notification); and no
    event of any kind emits 'askQuestion' while the request is outstanding. *)
Theorem C1_submit_rejected_while_loading h w :
  isLoading (component w) = true ->
  submitForm w = mkOut (Normal tt) w [] /\
  (let o := dispatch h SendClicked w in
   calls o = [] /\
   world o = (if showError (component w) then world (setShowError false w) else w) /\
   question (component (world o)) = question (component w) /\
   response (component (world o)) = response (component w) /\
   isLoading (component (world o)) = true /\
   error (component (world o)) = error (component w)) /\
  (forall h' e, countCalls isEmit (calls (dispatch h' e w)) = 0%nat).
Proof.
  intros Hl. split; [|split].
  - destruct_world w. js_unfold. cbn in Hl. subst.
    rewrite orb_true_r. reflexivity.
  - rewrite dispatch_eq. unfold sendDisabled. rewrite Hl, orb_true_r.
    destruct_world w. cbn in Hl. subst. destruct se; repeat split.
  - intros h' e.
    destruct e as [|results| | | | | | | | |];
      try solve [rewrite dispatch_eq; unfold countCalls; js_closed h' w; reflexivity].
    + apply dispatch_result_cases; cbn [calls]; try reflexivity.
      intros w1 ->. repeat split; unfold countCalls; js_closed h' w; reflexivity.
    + rewrite dispatch_eq. unfold sendDisabled. rewrite Hl, orb_true_r. reflexivity.
Qed.

Lemma C1_submit_rejected_while_loading_witness :
  submitForm awaiting = mkOut (Normal tt) awaiting [] /\
  (let o := dispatch hostOk SendClicked awaiting in
   calls o = [] /\
   world o = (if showError (component awaiting)
              then world (setShowError false awaiting) else awaiting) /\
   question (component (world o)) = question (component awaiting) /\
   response (component (world o)) = response (component awaiting) /\
   isLoading (component (world o)) = true /\
   error (component (world o)) = error (component awaiting)) /\
  (forall h' e, countCalls isEmit (calls (dispatch h' e awaiting)) = 0%nat).
Proof. apply (C1_submit_rejected_while_loading hostOk awaiting). reflexivity. Defined.

(** ** Runs of the event loop *)

Lemma run_app es1 es2 w :
  run (es1 ++ es2) w =
  (fst (run es2 (fst (run es1 w))), snd (run es1 w) ++ snd (run es2 (fst (run es1 w)))).
Proof.
  revert w. induction es1 as [|[h e] es1 IH]; intros w.
  - cbn. destruct (run es2 w); reflexivity.
  - cbn [run List.app fst snd]. rewrite IH. cbn [fst snd].
    rewrite app_assoc. reflexivity.
Qed.

(** No handler assigns [recognitionRef.current] after the mount effect. *)
Lemma dispatch_recognitionRef h e w :
  recognitionRef (component (world (dispatch h e w))) = recognitionRef (component w).
Proof.
  destruct e as [|results| | | | | | | | |];
    try solve [rewrite dispatch_eq; js_closed h w; reflexivity].
  apply dispatch_result_cases; cbn [world]; try reflexivity.
  intros w1 ->. repeat split; js_closed h w; reflexivity.
Qed.

Lemma run_recognitionRef es w :
  recognitionRef (component (fst (run es w))) = recognitionRef (component w).
Proof.
  revert w. induction es as [|[h e] es IH]; intros w; [reflexivity|].
  cbn [run fst]. rewrite IH. apply dispatch_recognitionRef.
Qed.

(** ** The transcript shown (C7, C8, C10) *)

(** [stopListening] never writes the question. *)
Lemma stopListening_question h w :
  question (component (world (stopListening h w))) = question (component w).
Proof. destruct_world w; destruct_host h. js_unfold. js_cases; reflexivity. Qed.

(** After a well-formed result event the question is the joined transcript of
    that event, whatever it was before. *)
Lemma onresult_question h results w :
  wellFormed results = true ->
  question (component (world (onresult h results w))) = joinedTranscript results.
Proof.
  intros Hwf. rewrite (onresult_wellFormed _ _ _ Hwf). cbn zeta.
  destruct results as [|r rs]; [destruct_world w; reflexivity|].
  destruct (isFinal r); [rewrite stopListening_question|];
    destruct_world w; reflexivity.
Qed.

(** [onresult] and [stopListening] leave the error state alone. *)
Lemma onresult_error h results w :
  error (component (world (onresult h results w))) = error (component w) /\
  showError (component (world (onresult h results w))) = showError (component w).
Proof.
  destruct (wellFormed results) eqn:Hwf.
  - rewrite (onresult_wellFormed _ _ _ Hwf).
    destruct results as [|r0 rs]; destruct_world w; destruct_host h;
      [split; reflexivity|]. js_unfold. js_cases; split; reflexivity.
  - rewrite (onresult_illFormed _ _ _ Hwf). split; reflexivity.
Qed.

Lemma dispatch_RecognitionResult h results w :
  recognitionRef (component w) = true ->
  dispatch h (RecognitionResult results) w = onresult h results w.
Proof.
  intros Hr. unfold dispatch, mbind, M_bind, bind, getApp. cbn [result world calls].
  rewrite Hr. cbn [List.app]. destruct (onresult h results w); reflexivity.
Qed.

(** What [onresult] shows is the transcripts in order: the first transcript
    of the first result, then that of the second, and so on. *)
Lemma joinedTranscript_inOrder results :
  joinedTranscript results = transcriptsInOrder results.
Proof.
  unfold joinedTranscript, join. induction results as [|r rs IH]; [reflexivity|].
  cbn [List.map List.concat transcriptsInOrder]. rewrite IH. reflexivity.
Qed.

(** C7: in any run of the event loop (recognition present), after each result
    event whose results each carry an alternative, the question shown is the
    concatenation, in the order of the results, of the first transcripts of
    the results of that event: the transcript of the first result followed by
    that of the second, and so on, with nothing between them. *)
Theorem C7_question_is_transcripts_in_order es h results w :
  recognitionRef (component w) = true ->
  wellFormed results = true ->
  question (component (fst (run (es ++ [(h, RecognitionResult results)]) w)))
  = transcriptsInOrder results.
Proof.
  intros Hr Hwf. rewrite run_app. cbn [fst run].
  rewrite dispatch_RecognitionResult by (rewrite run_recognitionRef; exact Hr).
  rewrite onresult_question by exact Hwf. apply joinedTranscript_inOrder.
Qed.

(** A session of three events; the last one carries three results, two final
    and one interim, and the question reads them in that order. *)
Lemma C7_question_is_transcripts_in_order_witness :
  question (component (fst (run
     ([(hostOk, RecognitionStarted);
       (hostOk, RecognitionResult [fragment "What" false]);
       (hostOk, RecognitionResult [fragment "What " true; fragment "time" false])]
      ++ [(hostOk, RecognitionResult
             [fragment "What " true; fragment "time " true; fragment "is it?" false])])
     (mounted true))))
  = lit "What time is it?".
Proof.
  exact (C7_question_is_transcripts_in_order
           [(hostOk, RecognitionStarted);
            (hostOk, RecognitionResult [fragment "What" false]);
            (hostOk, RecognitionResult [fragment "What " true; fragment "time" false])]
           hostOk
           [fragment "What " true; fragment "time " true; fragment "is it?" false]
           (mounted true) eq_refl eq_refl).
Defined.

(** C8, as stated, fails: a fragment delivered after a final one is applied:
    the question "What time is it?" of the final event is overwritten by the
    later "noise". *)
Lemma C8_fragment_after_final_is_applied :
  let es := [(hostOk, RecognitionResult [fragment "What time is it?" true]);
             (hostOk, RecognitionResult [fragment "noise" false])] in
  question (component (fst (run (firstn 1 es) listening))) = lit "What time is it?" /\
  question (component (fst (run es listening))) = lit "noise".
Proof. vm_compute. split; reflexivity. Qed.

(** C8 (amended): [onresult] keeps no record of finality: a result event
    delivered after an event whose first result was final is applied like
    any other (the question becomes its joined transcript); neither event
    surfaces an error: [error] and [showError] are as before. *)
Theorem C8_later_fragment_replaces_question h1 h2 r1 rs1 results2 w :
  recognitionRef (component w) = true ->
  wellFormed (r1 :: rs1) = true ->
  isFinal r1 = true ->
  wellFormed results2 = true ->
  let w' := fst (run [(h1, RecognitionResult (r1 :: rs1));
                      (h2, RecognitionResult results2)] w) in
  question (component w') = joinedTranscript results2 /\
  error (component w') = error (component w) /\
  showError (component w') = showError (component w).
Proof.
  intros Hr Hwf1 Hf Hwf2 w'. subst w'. cbn [run fst].
  rewrite (dispatch_RecognitionResult h1 _ w Hr).
  assert (Hr' : recognitionRef (component (world (onresult h1 (r1 :: rs1) w))) = true).
  { rewrite <- (dispatch_RecognitionResult h1 _ w Hr), dispatch_recognitionRef. exact Hr. }
  rewrite (dispatch_RecognitionResult h2 _ _ Hr').
  destruct (onresult_error h2 results2 (world (onresult h1 (r1 :: rs1) w))) as [He Hs].
  destruct (onresult_error h1 (r1 :: rs1) w) as [He1 Hs1].
  split; [apply onresult_question; exact Hwf2|]. split; congruence.
Qed.

Lemma C8_later_fragment_replaces_question_witness :
  let w' := fst (run [(hostOk, RecognitionResult [fragment "What time is it?" true]);
                      (hostOk, RecognitionResult [fragment "noise" false])] listening) in
  question (component w') = joinedTranscript [fragment "noise" false] /\
  error (component w') = error (component listening) /\
  showError (component w') = showError (component listening).
Proof.
  apply (C8_later_fragment_replaces_question hostOk hostOk
           (fragment "What time is it?" true) [] [fragment "noise" false] listening);
    reflexivity.
Defined.

(** C10: a result event replaces the whole question: after the user has typed
    [typed] into the field, a well-formed result event leaves exactly the
    joined transcript of the event, and the handler's outcome (world and host
    calls) is the one it has when nothing was typed. *)
Theorem C10_typed_text_is_discarded h typed results w :
  wellFormed results = true ->
  question (component (world (onresult h results (world (setQuestion typed w)))))
  = joinedTranscript results /\
  onresult h results (world (setQuestion typed w)) = onresult h results w.
Proof.
  intros Hwf. split; [apply onresult_question; exact Hwf|].
  rewrite !(onresult_wellFormed _ _ _ Hwf). cbn zeta.
  assert (Hq : world (setQuestion (joinedTranscript results) (world (setQuestion typed w)))
               = world (setQuestion (joinedTranscript results) w))
    by (destruct_world w; reflexivity).
  rewrite Hq. reflexivity.
Qed.

Lemma C10_typed_text_is_discarded_witness :
  question (component (world (onresult hostOk [fragment "What"%string false]
                                (world (setQuestion (lit "typed by hand") listening)))))
  = joinedTranscript [fragment "What" false] /\
  onresult hostOk [fragment "What" false]
    (world (setQuestion (lit "typed by hand") listening))
  = onresult hostOk [fragment "What" false] listening.
Proof.
  apply (C10_typed_text_is_discarded hostOk (lit "typed by hand")
           [fragment "What" false] listening). reflexivity.
Defined.

(** ** The answer of the agent (C5) *)

(** The ['botResponse'] listener: the answer is stored, the loading flag is
    cleared, nothing is emitted, and the synthesis device is asked to speak
    the answer once, unless building the utterance throws. *)
Lemma botResponse_effect h data w :
  let o := botResponse h data w in
  response (component (world o)) = data /\
  isLoading (component (world o)) = false /\
  countCalls isEmit (calls o) = 0%nat /\
  countCalls isSpeak (calls o) = (if utteranceThrows h then 0%nat else 1%nat) /\
  (utteranceThrows h = false -> In (Speak_call data) (calls o)).
Proof.
  destruct_world w; destruct_host h. js_unfold. js_cases; cbn; intuition discriminate.
Qed.

(** The ['error'] listener: the error is stored and shown, the loading flag
    is cleared, and neither the socket nor the synthesis device is called. *)
Lemma socketError_effect err w :
  socketError err w =
  mkOut (Normal tt)
        (updApp (fun a => mkApp (question a) (lit "Error: " ++ err) (isListening a) false err
                            true (timeLeft a) (recognitionRef a) (timeoutRef a)) w)
        [].
Proof. destruct_world w. reflexivity. Qed.

(** C5 fails in a browser without speech recognition: the mount effect
    returns before the socket listeners are registered, so the request "What
    is the capital of France?" is emitted but the answer "Paris." is dropped:
    nothing is stored, the loading flag stays set and nothing is spoken. *)
Theorem C5_answer_dropped_without_speech_recognition :
  let r := run [(hostOk, TextChanged (lit "What is the capital of France?"));
                (hostOk, SendClicked);
                (hostOk, SocketBotResponse (lit "Paris."))] (mounted false) in
  socketListeners (mounted false) = false /\
  snd r = [PreventDefault_call;
           SocketEmit_call (lit "askQuestion") (lit "What is the capital of France?")] /\
  response (component (fst r)) = [] /\
  isLoading (component (fst r)) = true /\
  countCalls isSpeak (snd r) = 0%nat.
Proof. vm_compute. repeat split. Qed.

(** Scenario A in a browser with speech recognition. *)
Lemma scenario_A_answer_shown_and_spoken :
  let r := run [(hostOk, TextChanged (lit "What is the capital of France?"));
                (hostOk, SendClicked);
                (hostOk, SocketBotResponse (lit "Paris."))] (mounted true) in
  snd r = [PreventDefault_call;
           SocketEmit_call (lit "askQuestion") (lit "What is the capital of France?");
           NewUtterance_call (lit "Paris."); Speak_call (lit "Paris.")] /\
  response (component (fst r)) = lit "Paris." /\
  isLoading (component (fst r)) = false.
Proof. vm_compute. repeat split. Qed.

(** ** Failures of the adapters (C6) *)

Lemma disarm_all id (ts : gset positive) :
  (forall x, x ∈ ts -> x = id) -> disarm id ts = ∅.
Proof.
  intros H. unfold disarm. apply set_eq. intros x.
  rewrite elem_of_difference, elem_of_singleton, elem_of_empty.
  split; [|tauto]. intros [Hx Hne]. apply Hne, H, Hx.
Qed.

Lemma arm_empty id x : x ∈ arm id ∅ -> x = id.
Proof.
  unfold arm. rewrite elem_of_union, elem_of_singleton, elem_of_empty. tauto.
Qed.

Lemma consistent_empty w : timers w = ∅ -> consistent w.
Proof. intros H id Hid. rewrite H in Hid. apply elem_of_empty in Hid. destruct Hid. Qed.

(** In a consistent world all active timers are the handle of [timeoutRef]. *)
Lemma consistent_stopped w : consistent w -> timers (stopped w) = ∅.
Proof.
  intros Hc. destruct_world w. unfold consistent in Hc. unfold stopped. js_unfold.
  destruct tr as [id|].
  - apply disarm_all. intros x Hx. destruct (Hc x Hx) as [E _]. congruence.
  - apply set_eq. intros x. rewrite elem_of_empty. split; [|tauto].
    intros Hx. destruct (Hc x Hx) as [E _]. discriminate.
Qed.

Lemma stopListening_invariant active h w :
  loopInvariant active w -> loopInvariant active (world (stopListening h w)).
Proof.
  intros (Hc & Ha & Hr).
  destruct (recognitionRef (component w) && stopThrows h) eqn:E.
  - apply andb_prop in E as [E1 E2]. rewrite stopListening_throws by auto.
    cbn [world]. split; [exact Hc|]. split; assumption.
  - rewrite stopListening_returns by exact E. cbn [world].
    pose proof (consistent_stopped w Hc) as He.
    split; [apply consistent_empty; exact He|]. split; intros _; exact He.
Qed.

(** Writing fields other than the listening flag and the refs keeps the
    invariant. *)
Lemma loopInvariant_same active w w' :
  timers w' = timers w ->
  timeoutRef (component w') = timeoutRef (component w) ->
  isListening (component w') = isListening (component w) ->
  recognitionRef (component w') = recognitionRef (component w) ->
  loopInvariant active w -> loopInvariant active w'.
Proof.
  intros Ht Hr Hl Hrr (Hc & Ha & Hn). unfold loopInvariant, consistent.
  rewrite Ht, Hr, Hl, Hrr. split; [exact Hc|]. split; assumption.
Qed.

Lemma onend_world w : world (onend w) = stopped w.
Proof. rewrite onend_eq. reflexivity. Qed.

Lemma onerror_world h err w :
  world (onerror h err w) =
  world (stopListening h (world (setShowError true (world (setError (lit "Error: " ++ err) w))))).
Proof. rewrite onerror_eq. reflexivity. Qed.

Lemma countdown_world h w :
  world (countdown h w) =
  if timeLeft (component w) <=? 1
  then world (setTimeLeft 0 (world (stopListening h w)))
  else world (setTimeLeft (timeLeft (component w) - 1) w).
Proof.
  rewrite countdown_eq. destruct (timeLeft (component w) <=? 1); reflexivity.
Qed.

Lemma onstart_invariant w :
  recognitionRef (component w) = true ->
  timers w = ∅ -> loopInvariant true (world (onstart w)).
Proof.
  intros Hr Ht. destruct_world w. cbn in Hr, Ht. subst. js_unfold.
  split; [|split; intros; discriminate].
  intros x Hx. apply arm_empty in Hx. subst. split; reflexivity.
Qed.

(** The invariant does not look at the fields a setter of the request side
    or of the notification writes. *)
Ltac same_fields w :=
  apply (loopInvariant_same _ w);
  [ destruct_world w; reflexivity | destruct_world w; reflexivity
  | destruct_world w; reflexivity | destruct_world w; reflexivity | ].

Lemma loopInvariant_clickAway active (wasOpen : bool) w :
  loopInvariant active w ->
  loopInvariant active (if wasOpen then world (setShowError false w) else w).
Proof. intros H. destruct wasOpen; [same_fields w|]; exact H. Qed.

(** Every handler keeps the invariant, whatever the host throws, provided a
    start event comes only when no device session is open. *)
Lemma dispatch_invariant active h e w :
  (e = RecognitionStarted -> active = false) ->
  loopInvariant active w ->
  loopInvariant (sessionAfter active e) (world (dispatch h e w)).
Proof.
  intros Hstart Hinv. pose proof Hinv as (Hc & Ha & Hn). rewrite dispatch_eq.
  destruct e as [|results|err| |id|data|err| | |value|]; cbn [sessionAfter].
  - (* onstart *)
    destruct (recognitionRef (component w)) eqn:Hr.
    + apply onstart_invariant; auto.
    + split; [exact Hc|]. split; [intros E; discriminate E|intros _; exact (Hn eq_refl)].
  - (* onresult *)
    destruct (recognitionRef (component w)) eqn:Hr; [|exact Hinv].
    apply onresult_cases; [exact Hinv|]. intros w1 ->.
    assert (Hq : loopInvariant active (world (setQuestion (joinedTranscript results) w)))
      by (same_fields w; exact Hinv).
    split; [exact Hq|]. split; [exact Hq|]. apply stopListening_invariant. exact Hq.
  - (* onerror *)
    destruct (recognitionRef (component w)) eqn:Hr; [|exact Hinv].
    rewrite onerror_eq. cbn [world]. apply stopListening_invariant.
    same_fields w. exact Hinv.
  - (* onend *)
    destruct (recognitionRef (component w)) eqn:Hr.
    + rewrite onend_eq. cbn [world]. pose proof (consistent_stopped w Hc) as He.
      split; [apply consistent_empty; exact He|]. split; intros _; exact He.
    + exact (conj Hc (conj (fun _ => Hn eq_refl) (fun _ => Hn eq_refl))).
  - (* the countdown *)
    destruct (bool_decide (id ∈ timers w)); [|exact Hinv].
    rewrite countdown_eq. destruct (timeLeft (component w) <=? 1); cbn [world].
    + pose proof (stopListening_invariant active h w Hinv) as Hs.
      revert Hs. generalize (world (stopListening h w)). intros w' Hs.
      same_fields w'. exact Hs.
    + same_fields w. exact Hinv.
  - (* the answer *)
    destruct (socketListeners w); [|exact Hinv].
    rewrite botResponse_eq, speakResponse_eq. cbn zeta.
    destruct (utteranceThrows h); [|destruct (speakThrows h)]; cbn [world];
      same_fields w; exact Hinv.
  - destruct (socketListeners w); [|exact Hinv]. same_fields w. exact Hinv.
  - (* the listening toggle *)
    cbn zeta. cbn [world]. apply loopInvariant_clickAway.
    destruct (speechSupported w); [|exact Hinv].
    destruct (isListening (component w)); [apply stopListening_invariant; exact Hinv|].
    rewrite startListening_eq.
    destruct (recognitionRef (component w)); [destruct (startThrows h)|]; cbn [world];
      exact Hinv.
  - (* Send *)
    cbn zeta. cbn [world]. apply loopInvariant_clickAway.
    destruct (sendDisabled (component w)); [exact Hinv|].
    rewrite handleSubmit_eq.
    destruct (hasVisibleCodeUnit (question (component w))); cbn [world]; exact Hinv.
  - same_fields w. exact Hinv.
  - same_fields w. exact Hinv.
Qed.

Lemma run_invariant es : forall active w,
  oneSessionAtATime active es = true ->
  loopInvariant active w ->
  consistent (fst (run es w)).
Proof.
  induction es as [|[h e] es IH]; intros active w Hp Hinv.
  - exact (proj1 Hinv).
  - cbn [run fst]. apply (IH (sessionAfter active e)).
    + destruct e; cbn [oneSessionAtATime sessionAfter] in *; try exact Hp.
      apply andb_prop in Hp as [_ Hp]. exact Hp.
    + apply dispatch_invariant; [|exact Hinv].
      intros ->. cbn [oneSessionAtATime] in Hp. apply andb_prop in Hp as [Hp _].
      destruct active; [discriminate|reflexivity].
Qed.

Lemma mounted_invariant supported : loopInvariant false (mounted supported).
Proof.
  assert (Ht : timers (mounted supported) = ∅) by (destruct supported; reflexivity).
  split; [apply consistent_empty; exact Ht|]. split; intros _; exact Ht.
Qed.

(** Why the assumption on the device is needed: [onstart] does not clear a
    previous interval, so two start events in a row leave the first
    countdown armed after the capture was stopped. *)
Lemma double_start_leaks_timer :
  let w := fst (run [(hostOk, RecognitionStarted); (hostOk, RecognitionStarted);
                     (hostOk, ToggleClicked)] (mounted true)) in
  isListening (component w) = false /\
  bool_decide (1%positive ∈ timers w) = true /\
  bool_decide (2%positive ∈ timers w) = false.
Proof. vm_compute. repeat split. Qed.

(** A capture error event whose [stop()] returns ends the capture and shows
    the error. *)
Lemma onerror_returns_idle h err w :
  consistent w ->
  recognitionRef (component w) && stopThrows h = false ->
  let w' := world (onerror h err w) in
  isListening (component w') = false /\
  timers w' = ∅ /\
  error (component w') = lit "Error: " ++ err /\
  showError (component w') = true.
Proof.
  intros Hc Hs w'. subst w'. rewrite onerror_world.
  set (w1 := world (setShowError true _)).
  assert (Hc1 : consistent w1) by (destruct_world w; exact Hc).
  assert (Hs1 : recognitionRef (component w1) && stopThrows h = false)
    by (destruct_world w; exact Hs).
  rewrite (stopListening_returns _ _ Hs1). cbn [world].
  split; [apply stopped_isListening|]. split; [apply consistent_stopped; exact Hc1|].
  rewrite stopped_component. destruct_world w. split; reflexivity.
Qed.

(** A throwing [start()] is logged and reported to the user; nothing else of
    the world changes. *)
Lemma startListening_throws h w :
  recognitionRef (component w) = true ->
  startThrows h = true ->
  startListening h w =
  mkOut (Normal tt)
        (world (setShowError true
           (world (setError (lit "Failed to start voice recognition. Please try again.") w))))
        [RecognitionStart_call; ConsoleError_call (lit "Error starting speech recognition:")].
Proof.
  intros Hr Ht. destruct_world w; destruct_host h. cbn in Hr, Ht. subst. reflexivity.
Qed.

(** A playback failure is logged and reported to the user; nothing else of
    the world changes. *)
Lemma speakResponse_throws h text w :
  utteranceThrows h || speakThrows h = true ->
  world (speakResponse h text w) =
  world (setShowError true
           (world (setError (lit "Failed to speak response. Please try again.") w))).
Proof.
  intros Ht. destruct_world w; destruct_host h. cbn in Ht. js_unfold.
  destruct hu; [reflexivity|]. cbn in Ht. subst. reflexivity.
Qed.

(** C6, as stated, fails on a failed stop: the user presses "Stop Listening"
    while listening and the device's [stop()] throws: the failure is only
    logged, the listening flag stays set, the countdown stays armed and no
    error is shown; the session has not returned to idle. *)
Lemma C6_failed_stop_stays_listening :
  let o := dispatch hostStopFails ToggleClicked listening in
  calls o = [RecognitionStop_call;
             ConsoleError_call (lit "Error stopping speech recognition:")] /\
  isListening (component (world o)) = true /\
  bool_decide (1%positive ∈ timers (world o)) = true /\
  showError (component (world o)) = false.
Proof. vm_compute. repeat split. Qed.

(** C6 (amended): along every run of the event loop from the mounted
    component in which the device opens one session at a time, whatever host
    calls throw, a countdown is armed only while the listening flag is set
    (and it is the one in [timeoutRef]).  In such a world: a capture error
    event whose [stop()] returns leaves the capture idle with no timer and
    the error shown; a failed start and a failed playback show their message
    and change nothing else; a failed stop changes nothing at all (the
    listening flag and the countdown stay as they were). *)
Theorem C6_countdown_armed_only_while_listening supported es :
  oneSessionAtATime false es = true ->
  let w := fst (run es (mounted supported)) in
  (forall id, id ∈ timers w ->
     timeoutRef (component w) = Some id /\ isListening (component w) = true) /\
  (forall h err, recognitionRef (component w) = true -> stopThrows h = false ->
     let w' := world (onerror h err w) in
     isListening (component w') = false /\ timers w' = ∅ /\
     error (component w') = lit "Error: " ++ err /\ showError (component w') = true) /\
  (forall h, recognitionRef (component w) = true -> startThrows h = true ->
     world (startListening h w) =
     world (setShowError true
              (world (setError (lit "Failed to start voice recognition. Please try again.") w)))) /\
  (forall h text, utteranceThrows h || speakThrows h = true ->
     world (speakResponse h text w) =
     world (setShowError true
              (world (setError (lit "Failed to speak response. Please try again.") w)))) /\
  (forall h, recognitionRef (component w) = true -> stopThrows h = true ->
     world (stopListening h w) = w).
Proof.
  intros Hp w.
  assert (Hc : consistent w)
    by (apply (run_invariant es false); [exact Hp|apply mounted_invariant]).
  split; [exact Hc|]. split; [|split; [|split]].
  - intros h err Hr Hs. apply onerror_returns_idle; [exact Hc|].
    rewrite Hs. apply andb_false_r.
  - intros h Hr Ht. rewrite startListening_throws by assumption. reflexivity.
  - intros h text Ht. apply speakResponse_throws. exact Ht.
  - intros h Hr Ht. rewrite stopListening_throws by assumption. reflexivity.
Qed.

Lemma C6_countdown_armed_only_while_listening_witness :
  let w := fst (run failuresRun (mounted true)) in
  (forall id, id ∈ timers w ->
     timeoutRef (component w) = Some id /\ isListening (component w) = true) /\
  (forall h err, recognitionRef (component w) = true -> stopThrows h = false ->
     let w' := world (onerror h err w) in
     isListening (component w') = false /\ timers w' = ∅ /\
     error (component w') = lit "Error: " ++ err /\ showError (component w') = true) /\
  (forall h, recognitionRef (component w) = true -> startThrows h = true ->
     world (startListening h w) =
     world (setShowError true
              (world (setError (lit "Failed to start voice recognition. Please try again.") w)))) /\
  (forall h text, utteranceThrows h || speakThrows h = true ->
     world (speakResponse h text w) =
     world (setShowError true
              (world (setError (lit "Failed to speak response. Please try again.") w)))) /\
  (forall h, recognitionRef (component w) = true -> stopThrows h = true ->
     world (stopListening h w) = w).
Proof.
  apply (C6_countdown_armed_only_while_listening true failuresRun). reflexivity.
Defined.

(** * Further properties of the component *)

(** ** Blank questions *)

(** X1: [handleSubmit] sends exactly when the question has a code unit that
    is not white space, and then the payload is the question as it stands in
    the field, untrimmed; a blank question only has its default prevented:
    nothing is sent and the world is unchanged. *)
Theorem X1_submit_sends_untrimmed_iff_not_blank w :
  handleSubmit w =
  if hasVisibleCodeUnit (question (component w))
  then mkOut (Normal tt) (world (setIsLoading true w))
             [PreventDefault_call;
              SocketEmit_call (lit "askQuestion") (question (component w))]
  else mkOut (Normal tt) w [PreventDefault_call].
Proof. apply handleSubmit_eq. Qed.

(** ** One request at a time through the controls *)

Lemma dispatch_emit_slot h e w :
  (countCalls isEmit (calls (dispatch h e w)) + idleSlot (world (dispatch h e w))
   <= idleSlot w + (if isResolution e then 1 else 0))%nat.
Proof.
  destruct e as [|results| | | | | | | | |];
    try (rewrite dispatch_eq; unfold countCalls, idleSlot, isResolution; js_closed h w;
         cbn [List.filter isEmit length]; lia).
  cbn [isResolution]. apply dispatch_result_cases; cbn [calls world]; try (cbn; lia).
  intros w1 ->. repeat split;
    unfold countCalls, idleSlot; js_closed h w; cbn [List.filter isEmit length]; lia.
Qed.

Lemma run_emit_slot es : forall w,
  (countCalls isEmit (snd (run es w)) + idleSlot (fst (run es w))
   <= idleSlot w + countResolutions es)%nat.
Proof.
  induction es as [|[h e] es IH]; intros w.
  - cbn. lia.
  - cbn [run fst snd]. rewrite countCalls_app.
    pose proof (dispatch_emit_slot h e w) as Hd.
    pose proof (IH (world (dispatch h e w))) as Hr.
    unfold countResolutions in *. cbn [List.filter snd].
    destruct (isResolution e); cbn [length]; lia.
Qed.

(** X2: through the rendered controls at most one request is outstanding: in
    every run from the mounted component, the number of 'askQuestion'
    emissions is at most one more than the number of response and error
    events of the socket. *)
Theorem X2_emissions_bounded_by_resolutions supported es :
  (countCalls isEmit (snd (run es (mounted supported))) <= S (countResolutions es))%nat.
Proof.
  pose proof (run_emit_slot es (mounted supported)) as H.
  assert (Hm : idleSlot (mounted supported) = 1%nat) by (destruct supported; reflexivity).
  lia.
Qed.

(** The loading flag is raised by [handleSubmit] only. *)
Lemma dispatch_loading_by_emit h e w :
  isLoading (component (world (dispatch h e w))) = true ->
  isLoading (component w) = true \/
  (1 <= countCalls isEmit (calls (dispatch h e w)))%nat.
Proof.
  destruct e as [|results| | | | | | | | |];
    try (rewrite dispatch_eq; unfold countCalls; js_closed h w;
         cbn [List.filter isEmit length];
         intros H; first [left; exact H | right; lia | discriminate H]).
  apply dispatch_result_cases; cbn [calls world]; auto.
  intros w1 ->. repeat split;
    unfold countCalls; js_closed h w; cbn [List.filter isEmit length];
    intros H; first [left; exact H | right; lia | discriminate H].
Qed.

(** X3: no request is shown as outstanding without having been sent: in every
    run from a world whose loading flag is off, the loading flag is set at the
    end only if 'askQuestion' was emitted during the run. *)
Theorem X3_loading_only_after_emission es : forall w,
  isLoading (component w) = false ->
  isLoading (component (fst (run es w))) = true ->
  (1 <= countCalls isEmit (snd (run es w)))%nat.
Proof.
  induction es as [|[h e] es IH]; intros w Hw Hl.
  - cbn in Hl. congruence.
  - cbn [run fst snd] in *. rewrite countCalls_app.
    destruct (isLoading (component (world (dispatch h e w)))) eqn:E.
    + destruct (dispatch_loading_by_emit h e w E) as [H|H]; [congruence|lia].
    + pose proof (IH _ E Hl). lia.
Qed.

Lemma X3_loading_only_after_emission_witness :
  (1 <= countCalls isEmit
          (snd (run [(hostOk, TextChanged (lit "hi")); (hostOk, SendClicked)]
                    (mounted true))))%nat.
Proof.
  apply (X3_loading_only_after_emission
           [(hostOk, TextChanged (lit "hi")); (hostOk, SendClicked)] (mounted true));
    reflexivity.
Defined.

(** ** The countdown *)

Lemma timeLeft_setTimeLeft v w : timeLeft (component (world (setTimeLeft v w))) = v.
Proof. destruct_world w. reflexivity. Qed.

Lemma dispatch_timeLeft_range h e w :
  0 <= timeLeft (component w) <= 60 ->
  0 <= timeLeft (component (world (dispatch h e w))) <= 60.
Proof.
  intros Hw.
  destruct e as [|results| | |id| | | | | |];
    try (rewrite dispatch_eq; js_closed h w; cbn in Hw; lia).
  - apply dispatch_result_cases; cbn [world]; try exact Hw.
    intros w1 ->. repeat split; js_closed h w; cbn in Hw; lia.
  - rewrite dispatch_eq. destruct (bool_decide (id ∈ timers w)); [|exact Hw].
    rewrite countdown_eq.
    destruct (Z.leb_spec (timeLeft (component w)) 1); cbn [world];
      rewrite timeLeft_setTimeLeft; lia.
Qed.

(** X4: the seconds shown stay between 0 and 60: in every run from the
    mounted component, whatever the events and whatever the host throws. *)
Theorem X4_timeLeft_between_0_and_60 supported es :
  0 <= timeLeft (component (fst (run es (mounted supported)))) <= 60.
Proof.
  assert (H : forall w, 0 <= timeLeft (component w) <= 60 ->
                        0 <= timeLeft (component (fst (run es w))) <= 60).
  { induction es as [|[h e] es IH]; intros w Hw; [exact Hw|].
    cbn [run fst]. apply IH, dispatch_timeLeft_range, Hw. }
  apply H. destruct supported; split; vm_compute; discriminate.
Qed.

Lemma setTimeLeft_same w : world (setTimeLeft (timeLeft (component w)) w) = w.
Proof. destruct_world w. reflexivity. Qed.

Lemma setTimeLeft_twice a b w :
  world (setTimeLeft a (world (setTimeLeft b w))) = world (setTimeLeft a w).
Proof. destruct_world w. reflexivity. Qed.

Lemma timers_setTimeLeft v w : timers (world (setTimeLeft v w)) = timers w.
Proof. destruct_world w. reflexivity. Qed.

(** X5: while more than one second is left the countdown only counts: [k]
    firings of an active interval, with more than [k] seconds left, lower
    [timeLeft] by exactly [k], change nothing else of the world and make no
    host call (in particular no [stop()]). *)
Theorem X5_countdown_counts_without_effects h id k : forall w,
  id ∈ timers w ->
  Z.of_nat k < timeLeft (component w) ->
  run (repeat (h, IntervalFired id) k) w =
  (world (setTimeLeft (timeLeft (component w) - Z.of_nat k) w), []).
Proof.
  induction k as [|k IH]; intros w Hid Hk.
  - cbn [repeat run]. rewrite Z.sub_0_r, setTimeLeft_same. reflexivity.
  - cbn [repeat run].
    assert (Hd : dispatch h (IntervalFired id) w =
                 mkOut (Normal tt) (world (setTimeLeft (timeLeft (component w) - 1) w)) []).
    { rewrite dispatch_eq, (bool_decide_eq_true_2 _ Hid), countdown_eq.
      destruct (Z.leb_spec (timeLeft (component w)) 1); [lia|reflexivity]. }
    rewrite Hd. cbn [world calls].
    rewrite IH.
    + rewrite timeLeft_setTimeLeft, setTimeLeft_twice. cbn [fst snd List.app].
      f_equal. f_equal. f_equal. lia.
    + rewrite timers_setTimeLeft. exact Hid.
    + rewrite timeLeft_setTimeLeft. lia.
Qed.

Lemma X5_countdown_counts_without_effects_witness :
  run (repeat (hostStopFails, IntervalFired 1%positive) 59) listening =
  (world (setTimeLeft (timeLeft (component listening) - Z.of_nat 59) listening), []).
Proof.
  apply (X5_countdown_counts_without_effects hostStopFails 1%positive 59 listening).
  - vm_compute. reflexivity.
  - vm_compute. reflexivity.
Defined.

(** X6: at most one countdown is active at a time: in every run from the
    mounted component in which the device opens one session at a time, any
    two active interval handles are equal. *)
Theorem X6_at_most_one_active_interval supported es i j :
  oneSessionAtATime false es = true ->
  i ∈ timers (fst (run es (mounted supported))) ->
  j ∈ timers (fst (run es (mounted supported))) ->
  i = j.
Proof.
  intros Hp Hi Hj.
  assert (Hc : consistent (fst (run es (mounted supported))))
    by (apply (run_invariant es false); [exact Hp|apply mounted_invariant]).
  destruct (Hc i Hi) as [Ei _]. destruct (Hc j Hj) as [Ej _]. congruence.
Qed.

Lemma X6_at_most_one_active_interval_witness : 2%positive = 2%positive.
Proof.
  apply (X6_at_most_one_active_interval true
           [(hostOk, RecognitionStarted); (hostStopFails, ToggleClicked);
            (hostOk, RecognitionEnded); (hostOk, RecognitionStarted)]
           2%positive 2%positive);
    [reflexivity | vm_compute; reflexivity | vm_compute; reflexivity].
Defined.

(** ** Stopping again, and the four ways a capture ends *)

Lemma disarm_twice id (ts : gset positive) : disarm id (disarm id ts) = disarm id ts.
Proof. apply disarm_inactive, not_elem_of_disarm. Qed.

Lemma stopped_twice w : stopped (stopped w) = stopped w.
Proof.
  destruct_world w. unfold stopped. js_unfold. destruct tr as [id|]; [|reflexivity].
  cbv beta iota. rewrite disarm_twice. reflexivity.
Qed.

(** X7: after a [stopListening] whose [stop()] returned, both a second
    [stopListening] (its [stop()] returning) and the end event of the device
    leave the world exactly as the first stop left it. *)
Theorem X7_stop_then_stop_or_end_changes_nothing h h' w :
  stopThrows h = false ->
  stopThrows h' = false ->
  world (stopListening h' (world (stopListening h w))) = world (stopListening h w) /\
  world (onend (world (stopListening h w))) = world (stopListening h w).
Proof.
  intros Hs Hs'. rewrite onend_eq, !stopListening_eq, Hs, andb_false_r.
  cbn [world]. rewrite Hs', andb_false_r. cbn [world]. split; apply stopped_twice.
Qed.

Lemma X7_stop_then_stop_or_end_changes_nothing_witness :
  world (stopListening hostOk (world (stopListening hostOk listening)))
  = world (stopListening hostOk listening) /\
  world (onend (world (stopListening hostOk listening)))
  = world (stopListening hostOk listening).
Proof.
  apply (X7_stop_then_stop_or_end_changes_nothing hostOk hostOk listening); reflexivity.
Defined.

Lemma captureState_stopped_same w w' :
  timers w' = timers w ->
  timeoutRef (component w') = timeoutRef (component w) ->
  captureState (stopped w') = captureState (stopped w).
Proof.
  intros Ht Hr. destruct_world w. destruct_world w'. cbn in Ht, Hr. subst.
  unfold captureState, stopped. js_unfold. destruct tr; reflexivity.
Qed.

Lemma captureState_setTimeLeft v w :
  captureState (world (setTimeLeft v w)) = captureState w.
Proof. destruct_world w. reflexivity. Qed.

Lemma captureState_clickAway (wasOpen : bool) w :
  captureState (if wasOpen then world (setShowError false w) else w) = captureState w.
Proof. destruct wasOpen; [destruct_world w|]; reflexivity. Qed.

Lemma stopCalls_same w w' :
  recognitionRef (component w') = recognitionRef (component w) ->
  timeoutRef (component w') = timeoutRef (component w) ->
  stopCalls w' = stopCalls w.
Proof. intros Hr Ht. unfold stopCalls. rewrite Hr, Ht. reflexivity. Qed.

(** X8: the four ways a capture ends converge on the same cleanup.  In a
    listening world whose [stop()] returns, the "Stop Listening" click, a
    capture error event, a result event whose first result is final and the
    expiry of the countdown all leave the same capture state (listening flag
    off, the handle of [timeoutRef] disarmed) and make the same cleanup calls
    ([stop()], then [clearInterval]); the error event logs to the console
    first. *)
Theorem X8_capture_endings_converge h id err r rs w :
  recognitionRef (component w) = true ->
  speechSupported w = true ->
  isListening (component w) = true ->
  stopThrows h = false ->
  id ∈ timers w ->
  timeLeft (component w) <= 1 ->
  wellFormed (r :: rs) = true ->
  isFinal r = true ->
  let byClick := dispatch h ToggleClicked w in
  let byError := dispatch h (RecognitionError err) w in
  let byFinal := dispatch h (RecognitionResult (r :: rs)) w in
  let byExpiry := dispatch h (IntervalFired id) w in
  captureState (world byClick) = captureState (stopped w) /\
  captureState (world byError) = captureState (stopped w) /\
  captureState (world byFinal) = captureState (stopped w) /\
  captureState (world byExpiry) = captureState (stopped w) /\
  calls byClick = stopCalls w /\
  calls byError = ConsoleError_call (lit "Speech recognition error:") :: stopCalls w /\
  calls byFinal = stopCalls w /\
  calls byExpiry = stopCalls w.
Proof.
  intros Hr Hsup Hl Hs Hid Ht Hwf Hf byClick byError byFinal byExpiry.
  subst byClick byError byFinal byExpiry. rewrite !dispatch_eq.
  rewrite Hr, Hsup, Hl, (bool_decide_eq_true_2 _ Hid).
  rewrite onerror_eq, countdown_eq, (onresult_wellFormed _ _ _ Hwf), Hf.
  destruct (Z.leb_spec (timeLeft (component w)) 1); [|lia].
  cbn zeta. rewrite !stopListening_eq, Hs, !andb_false_r. cbn [world calls].
  set (we := world (setShowError true (world (setError (lit "Error: " ++ err) w)))).
  set (wf := world (setQuestion (joinedTranscript (r :: rs)) w)).
  assert (He : timers we = timers w /\ timeoutRef (component we) = timeoutRef (component w)
               /\ recognitionRef (component we) = recognitionRef (component w))
    by (destruct_world w; repeat split).
  assert (Hq : timers wf = timers w /\ timeoutRef (component wf) = timeoutRef (component w)
               /\ recognitionRef (component wf) = recognitionRef (component w))
    by (destruct_world w; repeat split).
  destruct He as (He1 & He2 & He3). destruct Hq as (Hq1 & Hq2 & Hq3).
  split; [apply captureState_clickAway|].
  split; [apply captureState_stopped_same; assumption|].
  split; [apply captureState_stopped_same; assumption|].
  split; [apply captureState_setTimeLeft|].
  split; [reflexivity|].
  split; [f_equal; apply stopCalls_same; assumption|].
  split; [apply stopCalls_same; assumption|reflexivity].
Qed.

Lemma X8_capture_endings_converge_witness :
  let w := lastSecond in
  let byClick := dispatch hostOk ToggleClicked w in
  let byError := dispatch hostOk (RecognitionError (lit "no-speech")) w in
  let byFinal := dispatch hostOk (RecognitionResult [fragment "What time is it?" true]) w in
  let byExpiry := dispatch hostOk (IntervalFired 1%positive) w in
  captureState (world byClick) = captureState (stopped w) /\
  captureState (world byError) = captureState (stopped w) /\
  captureState (world byFinal) = captureState (stopped w) /\
  captureState (world byExpiry) = captureState (stopped w) /\
  calls byClick = stopCalls w /\
  calls byError = ConsoleError_call (lit "Speech recognition error:") :: stopCalls w /\
  calls byFinal = stopCalls w /\
  calls byExpiry = stopCalls w.
Proof.
  apply (X8_capture_endings_converge hostOk 1%positive (lit "no-speech")
           (fragment "What time is it?" true) [] lastSecond);
    [ vm_compute; reflexivity | reflexivity | vm_compute; reflexivity | reflexivity
    | vm_compute; reflexivity | vm_compute; discriminate | reflexivity | reflexivity ].
Defined.

(** ** Starting *)

(** X9: a click on "Start Listening" does not set the listening flag (only
    the start event of the device does), so a second click before that event
    is not prevented: it calls [recognition.start()] again.  When the device
    rejects that call, as it does for a session already started, the failure
    is logged and "Failed to start voice recognition. Please try again." is
    shown; nothing else of the world changes. *)
Theorem X9_second_start_click_fails_visibly h1 h2 w :
  speechSupported w = true ->
  recognitionRef (component w) = true ->
  isListening (component w) = false ->
  showError (component w) = false ->
  startThrows h1 = false ->
  startThrows h2 = true ->
  run [(h1, ToggleClicked); (h2, ToggleClicked)] w =
  (world (setShowError true
            (world (setError (lit "Failed to start voice recognition. Please try again.") w))),
   [RecognitionStart_call; RecognitionStart_call;
    ConsoleError_call (lit "Error starting speech recognition:")]).
Proof.
  intros Hsup Hr Hl Hse Ht1 Ht2. cbn [run].
  rewrite (dispatch_eq h1), Hsup, Hl, Hse, startListening_eq, Hr, Ht1.
  cbn zeta. cbn [world calls].
  rewrite (dispatch_eq h2), Hsup, Hl, Hse, startListening_eq, Hr, Ht2.
  reflexivity.
Qed.

Lemma X9_second_start_click_fails_visibly_witness :
  run [(hostOk, ToggleClicked); (mkHost true false false false, ToggleClicked)]
      (mounted true) =
  (world (setShowError true
            (world (setError (lit "Failed to start voice recognition. Please try again.")
                      (mounted true)))),
   [RecognitionStart_call; RecognitionStart_call;
    ConsoleError_call (lit "Error starting speech recognition:")]).
Proof.
  apply (X9_second_start_click_fails_visibly hostOk (mkHost true false false false)
           (mounted true)); reflexivity.
Defined.

(** ** Answers *)

(** X10: a playback failure does not lose the answer: when building the
    utterance or [speak()] throws, the answer is stored and the loading flag
    cleared all the same, the failure message is shown in place of any
    earlier error, nothing is emitted and no exception escapes. *)
Theorem X10_playback_failure_keeps_answer h data w :
  utteranceThrows h || speakThrows h = true ->
  let o := botResponse h data w in
  result o = Normal tt /\
  response (component (world o)) = data /\
  isLoading (component (world o)) = false /\
  error (component (world o)) = lit "Failed to speak response. Please try again." /\
  showError (component (world o)) = true /\
  countCalls isEmit (calls o) = 0%nat.
Proof.
  intros Ht o. subst o. rewrite botResponse_eq, speakResponse_eq.
  destruct_world w; destruct_host h. cbn in Ht.
  destruct hu; [repeat split|]. cbn in Ht. subst. repeat split.
Qed.

Lemma X10_playback_failure_keeps_answer_witness :
  let o := botResponse (mkHost false false false true) (lit "Paris.") awaiting in
  result o = Normal tt /\
  response (component (world o)) = lit "Paris." /\
  isLoading (component (world o)) = false /\
  error (component (world o)) = lit "Failed to speak response. Please try again." /\
  showError (component (world o)) = true /\
  countCalls isEmit (calls o) = 0%nat.
Proof.
  apply (X10_playback_failure_keeps_answer (mkHost false false false true)
           (lit "Paris.") awaiting). reflexivity.
Defined.


(** ** Without speech recognition *)

(** The component mounted without speech recognition: no recognition object,
    no socket listeners, no timer. *)
Lemma dispatch_unsupported h e w :
  recognitionRef (component w) = false ->
  socketListeners w = false ->
  speechSupported w = false ->
  timers w = ∅ ->
  let o := dispatch h e w in
  (recognitionRef (component (world o)) = false /\
   socketListeners (world o) = false /\
   speechSupported (world o) = false /\
   timers (world o) = ∅) /\
  response (component (world o)) = response (component w) /\
  isListening (component (world o)) = isListening (component w) /\
  (isLoading (component w) = true -> isLoading (component (world o)) = true) /\
  forallb isSubmitCall (calls o) = true.
Proof.
  intros Hr Hsl Hss Hts o. subst o. rewrite dispatch_eq.
  destruct e as [| | | |id| | | | | |]; rewrite ?Hr, ?Hsl, ?Hss;
    try solve [cbn [world calls forallb]; repeat split; auto].
  - rewrite bool_decide_eq_false_2 by (rewrite Hts; apply not_elem_of_empty).
    cbn [world calls forallb]. repeat split; auto.
  - cbn zeta. cbn [world calls forallb].
    destruct_world w. cbn in Hr, Hsl, Hss, Hts. subst.
    destruct se; repeat split; auto.
  - rewrite handleSubmit_eq. destruct_world w. cbn in Hr, Hsl, Hss, Hts. subst.
    unfold sendDisabled. js_unfold. js_split; repeat split; auto.
Qed.

Lemma run_unsupported es : forall w,
  recognitionRef (component w) = false ->
  socketListeners w = false ->
  speechSupported w = false ->
  timers w = ∅ ->
  (socketListeners (fst (run es w)) = false /\
   speechSupported (fst (run es w)) = false /\
   timers (fst (run es w)) = ∅) /\
  response (component (fst (run es w))) = response (component w) /\
  isListening (component (fst (run es w))) = isListening (component w) /\
  (isLoading (component w) = true -> isLoading (component (fst (run es w))) = true) /\
  forallb isSubmitCall (snd (run es w)) = true.
Proof.
  induction es as [|[h e] es IH]; intros w Hr Hsl Hss Hts.
  - cbn. repeat split; auto.
  - cbn [run fst snd].
    destruct (dispatch_unsupported h e w Hr Hsl Hss Hts)
      as ((Hr' & Hsl' & Hss' & Hts') & Hresp & Hlis & Hload & Hcalls).
    destruct (IH _ Hr' Hsl' Hss' Hts')
      as ((Hsl2 & Hss2 & Hts2) & Hresp2 & Hlis2 & Hload2 & Hcalls2).
    rewrite forallb_app, Hcalls, Hcalls2.
    repeat split; try congruence; auto.
Qed.

(** X12: in a browser without speech recognition nothing is ever received,
    captured or spoken: in every run from the mounted component the response
    stays empty, the listening flag stays off, no timer is armed, and the
    only host calls are those of submits ([preventDefault] and the
    'askQuestion' emission). *)
Theorem X12_unsupported_browser_only_sends es :
  let r := run es (mounted false) in
  response (component (fst r)) = [] /\
  isListening (component (fst r)) = false /\
  timers (fst r) = ∅ /\
  forallb isSubmitCall (snd r) = true.
Proof.
  destruct (run_unsupported es (mounted false)) as ((_ & _ & H3) & H1 & H2 & _ & H5);
    try reflexivity.
  cbn zeta. rewrite H1, H2. repeat split; assumption.
Qed.

(** X13: in a browser without speech recognition a request, once sent, stays
    outstanding for ever: if the loading flag is set after a run, it is still
    set after any continuation of the run, so the Send control stays
    disabled. *)
Theorem X13_unsupported_browser_stays_loading es1 es2 :
  isLoading (component (fst (run es1 (mounted false)))) = true ->
  isLoading (component (fst (run (es1 ++ es2) (mounted false)))) = true /\
  sendDisabled (component (fst (run (es1 ++ es2) (mounted false)))) = true.
Proof.
  intros Hl. rewrite run_app. cbn [fst].
  destruct (run_unsupported es1 (mounted false)) as ((Hsl & Hss & Hts) & _);
    try reflexivity.
  pose proof (run_recognitionRef es1 (mounted false)) as Hr.
  destruct (run_unsupported es2 _ Hr Hsl Hss Hts) as (_ & _ & _ & Hload & _).
  pose proof (Hload Hl) as Hfinal. split; [exact Hfinal|].
  unfold sendDisabled. rewrite Hfinal. apply orb_true_r.
Qed.

Lemma X13_unsupported_browser_stays_loading_witness :
  isLoading (component (fst (run
     ([(hostOk, TextChanged (lit "hi")); (hostOk, SendClicked)]
      ++ [(hostOk, SocketBotResponse (lit "Paris.")); (hostOk, SocketErrorEvent (lit "x"))])
     (mounted false)))) = true /\
  sendDisabled (component (fst (run
     ([(hostOk, TextChanged (lit "hi")); (hostOk, SendClicked)]
      ++ [(hostOk, SocketBotResponse (lit "Paris.")); (hostOk, SocketErrorEvent (lit "x"))])
     (mounted false)))) = true.
Proof.
  apply (X13_unsupported_browser_stays_loading
           [(hostOk, TextChanged (lit "hi")); (hostOk, SendClicked)]
           [(hostOk, SocketBotResponse (lit "Paris.")); (hostOk, SocketErrorEvent (lit "x"))]).
  reflexivity.
Defined.

(** ** Unmounting *)

Lemma cleanupCapture_returns h w :
  recognitionRef (component w) && stopThrows h = false ->
  cleanupCapture h w =
  mkOut (Normal tt)
        (match timeoutRef (component w) with
         | Some id => world (clearInterval id w)
         | None => w
         end)
        (stopCalls w).
Proof.
  intros H. destruct_world w; destruct_host h. cbn in H.
  destruct rr, hp, tr; try discriminate H; reflexivity.
Qed.

(** X14: unmounting when [stop()] returns releases what the component holds:
    the cleanup makes the calls of a stop ([stop()], [clearInterval] of the
    handle in [timeoutRef]) and then [socket.off] for both events; afterwards
    that handle is inactive, the listeners are gone, and a response or error
    event of the socket changes nothing and makes no host call. *)
Theorem X14_unmount_releases_timer_and_listeners h w :
  speechSupported w = true ->
  stopThrows h = false ->
  let u := unmount h w in
  unmountResult u = Normal tt /\
  unmountCalls u = List.map HostCall (stopCalls w)
                     ++ [SocketOff_call (lit "botResponse"); SocketOff_call (lit "error")] /\
  socketListeners (unmountWorld u) = false /\
  (forall id, timeoutRef (component w) = Some id -> id ∉ timers (unmountWorld u)) /\
  (forall h' data, dispatch h' (SocketBotResponse data) (unmountWorld u)
                   = mkOut (Normal tt) (unmountWorld u) []) /\
  (forall h' err, dispatch h' (SocketErrorEvent err) (unmountWorld u)
                  = mkOut (Normal tt) (unmountWorld u) []).
Proof.
  intros Hsup Hs u. subst u. unfold unmount, unmountCleanup. rewrite Hsup.
  rewrite cleanupCapture_returns by (rewrite Hs; apply andb_false_r).
  cbn [result world calls unmountResult unmountCalls unmountWorld].
  split; [reflexivity|]. split; [reflexivity|]. split; [reflexivity|].
  split; [|split].
  - intros id Hid. rewrite Hid. cbn [timers world clearInterval].
    unfold clearInterval. cbn [timers world]. apply not_elem_of_disarm.
  - intros h' data. rewrite dispatch_eq. reflexivity.
  - intros h' err. rewrite dispatch_eq. reflexivity.
Qed.

Lemma X14_unmount_releases_timer_and_listeners_witness :
  let u := unmount hostOk listening in
  unmountResult u = Normal tt /\
  unmountCalls u = List.map HostCall (stopCalls listening)
                     ++ [SocketOff_call (lit "botResponse"); SocketOff_call (lit "error")] /\
  socketListeners (unmountWorld u) = false /\
  (forall id, timeoutRef (component listening) = Some id -> id ∉ timers (unmountWorld u)) /\
  (forall h' data, dispatch h' (SocketBotResponse data) (unmountWorld u)
                   = mkOut (Normal tt) (unmountWorld u) []) /\
  (forall h' err, dispatch h' (SocketErrorEvent err) (unmountWorld u)
                  = mkOut (Normal tt) (unmountWorld u) []).
Proof.
  apply (X14_unmount_releases_timer_and_listeners hostOk listening); reflexivity.
Defined.

(** X15: the cleanup does not guard [stop()]: when it throws while
    unmounting, the exception escapes the cleanup, [clearInterval] and both
    [socket.off] calls are skipped, and the world is left as it was: an armed
    countdown stays armed and the socket listeners stay registered. *)
Theorem X15_unmount_with_failing_stop_releases_nothing h w :
  speechSupported w = true ->
  recognitionRef (component w) = true ->
  stopThrows h = true ->
  unmount h w = mkUnmountOut (Abrupt HostError) w [HostCall RecognitionStop_call].
Proof.
  intros Hsup Hr Hs. destruct_world w; destruct_host h. cbn in Hsup, Hr, Hs. subst.
  reflexivity.
Qed.

Lemma X15_unmount_with_failing_stop_releases_nothing_witness :
  unmount hostStopFails listening
  = mkUnmountOut (Abrupt HostError) listening [HostCall RecognitionStop_call].
Proof.
  apply (X15_unmount_with_failing_stop_releases_nothing hostStopFails listening);
    reflexivity.
Defined.

(** ** Malformed result events *)

(** X16: a result event in which some result has no alternative makes
    [onresult] throw a [TypeError] before anything is set: the question is
    kept, no host call is made and the capture is not stopped, even when the
    first result is final. *)
Theorem X16_result_without_alternative_changes_nothing h results w :
  recognitionRef (component w) = true ->
  wellFormed results = false ->
  dispatch h (RecognitionResult results) w = mkOut (Abrupt TypeError) w [].
Proof.
  intros Hr Hwf. rewrite dispatch_eq, Hr. apply onresult_illFormed. exact Hwf.
Qed.

Lemma X16_result_without_alternative_changes_nothing_witness :
  dispatch hostOk (RecognitionResult [fragment "What" false; mkResult [] true]) listening
  = mkOut (Abrupt TypeError) listening [].
Proof.
  apply (X16_result_without_alternative_changes_nothing hostOk
           [fragment "What" false; mkResult [] true] listening); reflexivity.
Defined.

(** X17: a result event with no result at all empties the question field and
    then throws a [TypeError] (reading [isFinal] of a missing first result);
    nothing else changes and no host call is made. *)
Theorem X17_empty_result_event_clears_question h w :
  recognitionRef (component w) = true ->
  dispatch h (RecognitionResult []) w =
  mkOut (Abrupt TypeError) (world (setQuestion [] w)) [].
Proof.
  intros Hr. rewrite dispatch_eq, Hr.
  rewrite onresult_wellFormed by reflexivity. reflexivity.
Qed.

Lemma X17_empty_result_event_clears_question_witness :
  dispatch hostOk (RecognitionResult []) listeningTyped =
  mkOut (Abrupt TypeError) (world (setQuestion [] listeningTyped)) [].
Proof.
  apply (X17_empty_result_event_clears_question hostOk listeningTyped). reflexivity.
Defined.

(** ** Capture and request do not interfere *)

(** X18: no event of the capture side (recognition events, countdown firings,
    the listening toggle) ever sends a question or speaks: such an event
    makes no 'askQuestion' emission and no [speak()] call, and leaves the
    loading flag and the response as they are.  In particular a final
    transcript is not submitted by itself. *)
Theorem X18_capture_events_never_send h e w :
  isCaptureEvent e = true ->
  let o := dispatch h e w in
  countCalls isEmit (calls o) = 0%nat /\
  countCalls isSpeak (calls o) = 0%nat /\
  isLoading (component (world o)) = isLoading (component w) /\
  response (component (world o)) = response (component w).
Proof.
  intros He o. subst o.
  destruct e as [|results| | | | | | | | |]; try discriminate He;
    try solve [rewrite dispatch_eq; unfold countCalls; js_closed h w; repeat split].
  apply dispatch_result_cases; cbn [calls world]; try (repeat split).
  all: subst; unfold countCalls; js_closed h w; repeat split.
Qed.

Lemma X18_capture_events_never_send_witness :
  let o := dispatch hostOk (RecognitionResult [fragment "What time is it?" true]) listening in
  countCalls isEmit (calls o) = 0%nat /\
  countCalls isSpeak (calls o) = 0%nat /\
  isLoading (component (world o)) = isLoading (component listening) /\
  response (component (world o)) = response (component listening).
Proof.
  apply (X18_capture_events_never_send hostOk
           (RecognitionResult [fragment "What time is it?" true]) listening).
  reflexivity.
Defined.

(** X19: no event of the request side (socket events, the Send control, typing,
    closing the snackbar) touches the capture: the listening flag, the active
    timers and [timeoutRef] are unchanged and no call is made on the
    recognition object or the timers.  In particular neither a submit nor an
    answer ends a running capture. *)
Theorem X19_request_events_never_touch_capture h e w :
  isCaptureEvent e = false ->
  let o := dispatch h e w in
  captureState (world o) = captureState w /\
  countCalls isCaptureCall (calls o) = 0%nat.
Proof.
  intros He o. subst o.
  destruct e; try discriminate He;
    rewrite dispatch_eq; unfold countCalls, captureState; js_closed h w; repeat split.
Qed.

Lemma X19_request_events_never_touch_capture_witness :
  let o := dispatch hostOk (SocketBotResponse (lit "Paris.")) listening in
  captureState (world o) = captureState listening /\
  countCalls isCaptureCall (calls o) = 0%nat.
Proof.
  apply (X19_request_events_never_touch_capture hostOk
           (SocketBotResponse (lit "Paris.")) listening). reflexivity.
Defined.

(** ** The error notification *)

(** X20: an open error notification is closed by its own close event or by
    a click on a control (a click outside the Snackbar), and by nothing else:
    after any event other than the close event, [showError] is false if the
    event is a click and still true otherwise.  A click closes it even when
    its own handler has just reported a new failure. *)
Theorem X20_notification_closed_by_snackbar_or_click h e w :
  showError (component w) = true ->
  e <> SnackbarClosed ->
  showError (component (world (dispatch h e w))) = negb (isClick e).
Proof.
  intros Hs He.
  destruct e as [|results| | | | | | | | |]; try congruence; cbn [isClick negb];
    try solve [rewrite dispatch_eq; js_closed h w; cbn in Hs;
               first [discriminate Hs | subst; reflexivity]].
  apply dispatch_result_cases; cbn [world]; try exact Hs.
  intros w1 ->. repeat split; js_closed h w; cbn in Hs;
    first [discriminate Hs | subst; reflexivity].
Qed.

(** The toggle is clicked while the notification of a capture error is open
    and [start()] throws. *)
Lemma X20_notification_closed_by_snackbar_or_click_witness :
  showError (component (world (dispatch (mkHost true false false false) ToggleClicked
     (fst (run [(hostOk, RecognitionStarted);
                (hostOk, RecognitionError (lit "no-speech"));
                (hostOk, RecognitionEnded)] (mounted true))))))
  = negb (isClick ToggleClicked).
Proof.
  apply (X20_notification_closed_by_snackbar_or_click (mkHost true false false false)
           ToggleClicked); [reflexivity | discriminate].
Defined.

